(** * Blocking probability of an M/M/S/S loss system

    Shallow embedding of the two numerical engines of the repository:
    - [erlangBFormula] and [factorial] (erlangB.js), the analytical
      Erlang-B evaluator;
    - [simulateBlockingProbability] (simulation.js), the Monte Carlo
      simulator.

    JavaScript numbers are IEEE 754 binary64 values.  They are modelled by
    [spec_float] at precision 53 and maximal exponent 1024, with the
    operations of the Standard Library's executable specification
    (round to nearest, ties to even; one NaN, as JavaScript observes it). *)

From Stdlib Require Import ZArith List Bool Lia QArith Qpower Qfield Lqa.
From Stdlib Require Import Floats.SpecFloat.
From Stdlib Require String.
Import ListNotations.

Local Open Scope Z_scope.

(** ** JavaScript numbers *)

Definition number : Type := spec_float.

Definition prec : Z := 53.
Definition emax : Z := 1024.

Definition fadd : number -> number -> number := SFadd prec emax.
Definition fmul : number -> number -> number := SFmul prec emax.
Definition fdiv : number -> number -> number := SFdiv prec emax.
Definition fneg : number -> number := SFopp.
Definition fltb : number -> number -> bool := SFltb.
Definition fleb : number -> number -> bool := SFleb.

(** The number denoted by an integer literal or held by an integer-valued
    variable (exact below 2^53, rounded above). *)
Definition of_Z (n : Z) : number := binary_normalize prec emax n 0 false.

Definition NaN : number := S754_nan.
Definition Infinity : number := S754_infinity false.
Definition pos_zero : number := S754_zero false.

Definition isNaN (x : number) : bool :=
  match x with S754_nan => true | _ => false end.

Definition isFinite (x : number) : bool :=
  match x with S754_zero _ | S754_finite _ _ _ => true | _ => false end.

(** [x] is a number of the closed interval [0, 1]. *)
Definition in_unit_interval (x : number) : bool :=
  fleb pos_zero x && fleb x (of_Z 1).

(** A number that is at least 1: +Infinity, or a positive normalised
    mantissa with exponent at least -52. *)
Definition at_least_one (x : number) : bool :=
  match x with
  | S754_infinity false => true
  | S754_finite false m e => (Zpos (digits2_pos m) =? prec) && (1 - prec <=? e)
  | _ => false
  end.

(** A positive finite number that is at most 1: its exponent is below
    that of 1, or it is 1 itself. *)
Definition at_most_one_pos (x : number) : Prop :=
  exists (m : positive) (e : Z),
    x = S754_finite false m e /\
    (e < 1 - prec \/ (e = 1 - prec /\ Zpos m = 2 ^ (prec - 1))).

Declare Scope num_scope.
Delimit Scope num_scope with num.
Bind Scope num_scope with number.
Infix "+" := fadd : num_scope.
Infix "*" := fmul : num_scope.
Infix "/" := fdiv : num_scope.
Infix "<?" := fltb : num_scope.
Infix "<=?" := fleb : num_scope.
Notation "- x" := (fneg x) : num_scope.

(** ** erlangB.js *)

(** [Math.pow] at an integer exponent.  ECMAScript fixes the special cases
    (exponent 0 gives 1 whatever the base, a zero base gives 0 or Infinity,
    NaN and the infinities propagate) and leaves the rest to an
    implementation-approximated value.  The model takes the iterated
    binary64 product, and its reciprocal for a negative exponent: it meets
    every fixed case and overflows to Infinity as any implementation does
    once the exact power is out of range.  At other arguments it can differ
    from an engine's value in the last bits, and near the bottom of the
    range (2^-1074) by an underflow of the reciprocal; the theorems below
    use it only where the power is exact, overflows, or does not matter. *)
Fixpoint pow_nat (b : number) (n : nat) : number :=
  match n with
  | O => of_Z 1
  | S n' => (pow_nat b n' * b)%num
  end.

Definition Math_pow (b : number) (e : Z) : number :=
  match e with
  | Z0 => of_Z 1
  | Zpos p => pow_nat b (Pos.to_nat p)
  | Zneg p => (of_Z 1 / pow_nat b (Pos.to_nat p))%num
  end.

(** [function factorial(n) { return n <= 1 ? 1 : n * factorial(n - 1); }]
    at the integer arguments [erlangBFormula] passes.  [depth] bounds the
    recursion; [Z.to_nat n] frames are enough (see [factorial_eq]). *)
Fixpoint factorial_rec (depth : nat) (n : Z) : number :=
  match depth with
  | O => of_Z 1
  | S d => if n <=? 1 then of_Z 1 else (of_Z n * factorial_rec d (n - 1))%num
  end.

Definition factorial (n : Z) : number := factorial_rec (Z.to_nat n) n.

(** The values taken by [k] in [for (let k = 0; k <= S; k++)], for an
    integer [S]: none when [S] is negative. *)
Definition loop_indices (S : Z) : list Z :=
  map Z.of_nat (seq 0 (Z.to_nat (S + 1))).

Definition numerator (A : number) (S : Z) : number :=
  (Math_pow A S / factorial S)%num.

Definition denominator (A : number) (S : Z) : number :=
  fold_left (fun den k => (den + Math_pow A k / factorial k)%num)
            (loop_indices S) (of_Z 0).

Definition erlangBFormula (A : number) (S : Z) : number :=
  (numerator A S / denominator A S)%num.

(** Reference closed form of the specification,
    B(A, S) = (A^S / S!) / sum_{k=0..S} (A^k / k!), over exact rationals. *)
Fixpoint fact_Q (n : nat) : Q :=
  match n with
  | O => 1%Q
  | S n' => (inject_Z (Z.of_nat n) * fact_Q n')%Q
  end.

Definition term_Q (A : Q) (k : nat) : Q := (A ^ Z.of_nat k / fact_Q k)%Q.

Fixpoint sum_terms_Q (A : Q) (S : nat) : Q :=
  match S with
  | O => term_Q A 0
  | S S' => (sum_terms_Q A S' + term_Q A S)%Q
  end.

Definition erlangB_closed_form (A : Q) (S : nat) : Q :=
  (term_Q A S / sum_terms_Q A S)%Q.

(** The recurrence the specification gives for the same quantity:
    B(A, 0) = 1 and B(A, k) = A B(A, k-1) / (k + A B(A, k-1)). *)
Fixpoint erlangB_recurrence (A : Q) (S : nat) : Q :=
  match S with
  | O => 1%Q
  | Datatypes.S k =>
      (A * erlangB_recurrence A k
       / (inject_Z (Z.of_nat S) + A * erlangB_recurrence A k))%Q
  end.

(** ** simulation.js *)

(** The local variables of one call, together with what the call does to
    its host: how many times it has called [Math.random], and the delays of
    the callbacks it has handed to [setTimeout].  A callback runs only when
    the host's event loop gets control back, that is after the call has
    returned; it then decrements [serversInUse].

    The counters hold integers and change by [++] only; they are integers
    here, which is what binary64 computes as long as they stay below 2^53.
    The server count is the integer the caller obtains from [parseInt]. *)
Record sim_state : Type := mkState {
  blocked : Z;
  served : Z;
  currentTime : number;
  serversInUse : Z;
  random_calls : nat;
  timers : list number
}.

Definition initial_state : sim_state :=
  {| blocked := 0; served := 0; currentTime := of_Z 0; serversInUse := 0;
     random_calls := 0; timers := [] |}.

(** What the event loop does with the pending callbacks once it runs them:
    each performs [serversInUse--]. *)
Definition fire_timers (st : sim_state) : sim_state :=
  {| blocked := blocked st; served := served st;
     currentTime := currentTime st;
     serversInUse := serversInUse st - Z.of_nat (length (timers st));
     random_calls := random_calls st; timers := [] |}.

Section Run.

(** The host: [Math.log], and the value returned by the i-th call of
    [Math.random] (counting from 0). *)
Variable Math_log : number -> number.
Variable Math_random : nat -> number.

(** The arguments of the call. *)
Variables lambda mu : number.
Variable servers : Z.
Variable timeLimit : number.

Definition loop_condition (st : sim_state) : bool :=
  (currentTime st <? timeLimit)%num.

(** One execution of the body of the [while] loop. *)
Definition loop_body (st : sim_state) : sim_state :=
  let interArrival := (- Math_log (Math_random (random_calls st)) / lambda)%num in
  let serviceTime := (- Math_log (Math_random (S (random_calls st))) / mu)%num in
  let currentTime' := (currentTime st + interArrival)%num in
  if serversInUse st <? servers then
    {| blocked := blocked st; served := served st + 1;
       currentTime := currentTime';
       serversInUse := serversInUse st + 1;
       random_calls := S (S (random_calls st));
       timers := timers st ++ [(serviceTime * of_Z 1000)%num] |}
  else
    {| blocked := blocked st + 1; served := served st;
       currentTime := currentTime';
       serversInUse := serversInUse st;
       random_calls := S (S (random_calls st));
       timers := timers st |}.

(** The [while] loop; [None] when [fuel] iterations do not reach the
    exit. *)
Fixpoint while_loop (fuel : nat) (st : sim_state) : option sim_state :=
  match fuel with
  | O => if loop_condition st then None else Some st
  | S fuel' =>
      if loop_condition st then while_loop fuel' (loop_body st) else Some st
  end.

(** The state after [n] executions of the body. *)
Definition state_after (n : nat) : sim_state :=
  Nat.iter n loop_body initial_state.

Definition final_ratio (st : sim_state) : number :=
  (of_Z (blocked st) / of_Z (blocked st + served st))%num.

Definition simulateBlockingProbability (fuel : nat) : option number :=
  option_map final_ratio (while_loop fuel initial_state).

End Run.

(** ** Hosts for concrete runs *)

(** The numbers 0.5 and 0.125. *)
Definition one_half : number := S754_finite false 4503599627370496 (-53).
Definition one_eighth : number := S754_finite false 4503599627370496 (-55).

(** [Math.log] at the arguments the concrete runs below use: the correctly
    rounded binary64 logarithms of 0.5 and 0.125, [Math.log(1) = 0] and
    [Math.log(0) = -Infinity]. *)
Definition log_table (x : number) : number :=
  match x with
  | S754_finite false 4503599627370496 (-53) =>
      S754_finite true 6243314768165359 (-53)
  | S754_finite false 4503599627370496 (-55) =>
      S754_finite true 4682486076124019 (-51)
  | S754_finite false 4503599627370496 (-52) => S754_zero false
  | S754_zero _ => S754_infinity true
  | _ => NaN
  end.

(** A random source that returns 0.5, 0.5, 0.125 and then 0.5 for ever. *)
Definition draws_late_second (i : nat) : number :=
  match i with
  | 2%nat => one_eighth
  | _ => one_half
  end.

Definition draws_half (_ : nat) : number := one_half.

(** ** Further predicates and hosts *)

Definition isZero (x : number) : bool :=
  match x with S754_zero _ => true | _ => false end.

(** What the returned value of a run can depend on: every local variable,
    and nothing of the timer queue. *)
Definition counters_and_clock (st : sim_state) : Z * Z * number * Z * nat :=
  (blocked st, served st, currentTime st, serversInUse st, random_calls st).

(** A random source that always returns 0, the smallest value
    [Math.random] can return: every gap is then infinite. *)
Definition zero_draws (_ : nat) : number := pos_zero.

(** A random source that returns 0.5 for the gaps and 0.125 for the
    service times. *)
Definition draws_half_eighth (i : nat) : number :=
  if Nat.even i then one_half else one_eighth.

(** ** chart.js *)

Module Chart.

Import String.
Local Open Scope string_scope.

(** What [simulateAndPlot] hands to Chart.js: the labels of the x axis and
    the two series with their legend and colour.  The display options
    (axis titles, [responsive]) carry no data and are left out. *)
Record dataset : Type := mkDataset {
  label : string;
  data : list number;
  borderColor : string;
  fill : bool
}.

Record chart : Type := mkChart {
  labels : list number;
  datasets : list dataset
}.

(** The page across calls: the global [chartInstance], the number of charts
    alive on the canvas (Chart.js keeps a chart alive from [new Chart] to
    its [destroy]), and the number of calls [Math.random] has served. *)
Record page : Type := mkPage {
  chartInstance : option chart;
  live_charts : nat;
  random_used : nat
}.

Definition initial_page : page :=
  {| chartInstance := None; live_charts := 0; random_used := 0 |}.

Definition theory_label : string := "Erlang B Formula".
Definition simulation_label : string := "Simulation".

Definition line_chart (offeredLoads theoreticalBlocking simulatedBlocking : list number)
  : chart :=
  {| labels := offeredLoads;
     datasets :=
       [ {| label := theory_label; data := theoreticalBlocking;
            borderColor := "blue"; fill := false |};
         {| label := simulation_label; data := simulatedBlocking;
            borderColor := "red"; fill := false |} ] |}.

(** [if (chartInstance) chartInstance.destroy();
     chartInstance = new Chart(ctx, ...)]. *)
Definition show_chart (pg : page) (c : chart) (used : nat) : page :=
  let alive :=
    match chartInstance pg with
    | Some _ => Nat.pred (live_charts pg)
    | None => live_charts pg
    end in
  {| chartInstance := Some c; live_charts := S alive; random_used := used |}.

Section Plot.

Variable Math_log : number -> number.
Variable Math_random : nat -> number.
Variable fuel : nat.

(** A call of [simulateBlockingProbability] made when [Math.random] has
    already served [used] calls: the result, and the calls served after
    it. *)
Definition simulate_call (used : nat) (lambda mu : number) (servers : Z)
  (timeLimit : number) : option (number * nat) :=
  option_map (fun st => (final_ratio st, (used + random_calls st)%nat))
    (while_loop Math_log (fun i => Math_random (used + i)%nat)
       lambda mu servers timeLimit fuel initial_state).

(** [offeredLoads.map(f)] for an [f] that runs the simulator: the runs
    follow one another on the same random source. *)
Fixpoint map_simulate (f : number -> nat -> option (number * nat))
  (loads : list number) (used : nat) : option (list number * nat) :=
  match loads with
  | [] => Some ([], used)
  | A :: rest =>
      match f A used with
      | None => None
      | Some (v, used') =>
          match map_simulate f rest used' with
          | None => None
          | Some (vs, used'') => Some (v :: vs, used'')
          end
      end
  end.

End Plot.

(** The first [simulateAndPlot] of chart.js: the offered loads are scaled by
    [lambda / mu], and every run of the simulator uses [lambda]. *)
Module ScaledLoads.

Definition offeredLoads (lambda mu : number) : list number :=
  map (fun i => (of_Z (Z.of_nat i + 1) * one_half * lambda / mu)%num) (seq 0 20).

Definition simulateAndPlot (Math_log : number -> number) (Math_random : nat -> number)
  (fuel : nat) (servers : Z) (lambda mu : number) (pg : page) : option page :=
  let offeredLoads := offeredLoads lambda mu in
  let theoreticalBlocking := map (fun A => erlangBFormula A servers) offeredLoads in
  match map_simulate
          (fun _ used =>
             simulate_call Math_log Math_random fuel used lambda mu servers (of_Z 1000))
          offeredLoads (random_used pg) with
  | None => None
  | Some (simulatedBlocking, used) =>
      Some (show_chart pg
              (line_chart offeredLoads theoreticalBlocking simulatedBlocking) used)
  end.

End ScaledLoads.

(** The second [simulateAndPlot] of chart.js: the offered loads are 0.5, 1,
    ..., 10, and each is the arrival rate of its run; [lambda] is read and
    not used. *)
Module FixedLoads.

Definition offeredLoads : list number :=
  map (fun i => (of_Z (Z.of_nat i + 1) * one_half)%num) (seq 0 20).

Definition simulateAndPlot (Math_log : number -> number) (Math_random : nat -> number)
  (fuel : nat) (servers : Z) (lambda mu : number) (pg : page) : option page :=
  let theoreticalBlocking := map (fun A => erlangBFormula A servers) offeredLoads in
  match map_simulate
          (fun A used =>
             simulate_call Math_log Math_random fuel used A mu servers (of_Z 1000))
          offeredLoads (random_used pg) with
  | None => None
  | Some (simulatedBlocking, used) =>
      Some (show_chart pg
              (line_chart offeredLoads theoreticalBlocking simulatedBlocking) used)
  end.

End FixedLoads.

(** The page after a sequence of clicks on the button, each with the inputs
    read from the form. *)
Fixpoint clicks (handler : Z -> number -> number -> page -> option page)
  (inputs : list (Z * number * number)) (pg : page) : option page :=
  match inputs with
  | [] => Some pg
  | (servers, lambda, mu) :: rest =>
      match handler servers lambda mu pg with
      | None => None
      | Some pg' => clicks handler rest pg'
      end
  end.

End Chart.

(** * Facts about binary64 arithmetic *)

Lemma digits2_pos_bounds (p : positive) :
  2 ^ (Zpos (digits2_pos p) - 1) <= Zpos p < 2 ^ Zpos (digits2_pos p).
Proof.
  induction p as [p IH | p IH |]; cbn [digits2_pos].
  - rewrite Pos2Z.inj_succ.
    replace (Z.succ (Zpos (digits2_pos p)) - 1) with (Z.succ (Zpos (digits2_pos p) - 1)) by lia.
    rewrite !Z.pow_succ_r by lia. lia.
  - rewrite Pos2Z.inj_succ.
    replace (Z.succ (Zpos (digits2_pos p)) - 1) with (Z.succ (Zpos (digits2_pos p) - 1)) by lia.
    rewrite !Z.pow_succ_r by lia. lia.
  - cbn. lia.
Qed.

Lemma digits2_pos_unique (p : positive) (d : Z) :
  2 ^ (d - 1) <= Zpos p < 2 ^ d -> Zpos (digits2_pos p) = d.
Proof.
  intros [Hlo Hhi].
  pose proof (digits2_pos_bounds p) as [Blo Bhi].
  assert (0 < d).
  { destruct (Z.lt_ge_cases 0 d) as [|Hd]; [assumption|].
    assert (2 ^ d <= 2 ^ 0) by (apply Z.pow_le_mono_r; lia).
    change (2 ^ 0) with 1 in *. lia. }
  assert (Zpos (digits2_pos p) - 1 < d).
  { apply (Z.pow_lt_mono_r_iff 2); lia. }
  assert (d - 1 < Zpos (digits2_pos p)).
  { apply (Z.pow_lt_mono_r_iff 2); lia. }
  lia.
Qed.

Lemma shr_1_m (mrs : shr_record) :
  0 <= shr_m mrs -> shr_m (shr_1 mrs) = shr_m mrs / 2.
Proof.
  destruct mrs as [m r s]. cbn [shr_m]. intros Hm.
  destruct m as [|p|p]; [reflexivity| |lia].
  destruct p as [p|p|]; cbn [shr_1 shr_m].
  - rewrite Pos2Z.inj_xI. apply Z.div_unique with (r := 1); lia.
  - rewrite Pos2Z.inj_xO. apply Z.div_unique with (r := 0); lia.
  - reflexivity.
Qed.

Lemma iter_shr_1_m (n : positive) : forall mrs,
  0 <= shr_m mrs ->
  shr_m (iter_pos shr_1 n mrs) = shr_m mrs / 2 ^ Zpos n.
Proof.
  induction n as [n IH | n IH |]; intros mrs Hm; cbn [iter_pos].
  - assert (H1 : 0 <= shr_m (shr_1 mrs)).
    { rewrite shr_1_m by assumption. apply Z.div_pos; lia. }
    assert (H2 : 0 <= shr_m (iter_pos shr_1 n (shr_1 mrs))).
    { rewrite IH by assumption. apply Z.div_pos; lia. }
    rewrite IH, IH, shr_1_m by assumption.
    rewrite !Z.div_div by lia.
    f_equal.
    replace (Zpos n~1) with (1 + Zpos n + Zpos n) by lia.
    rewrite !Z.pow_add_r by lia. change (2 ^ 1) with 2. lia.
  - assert (H2 : 0 <= shr_m (iter_pos shr_1 n mrs)).
    { rewrite IH by assumption. apply Z.div_pos; lia. }
    rewrite IH, IH by assumption.
    rewrite !Z.div_div by lia.
    f_equal.
    replace (Zpos n~0) with (Zpos n + Zpos n) by lia.
    rewrite !Z.pow_add_r by lia. reflexivity.
  - rewrite shr_1_m by assumption. reflexivity.
Qed.

Lemma shr_record_of_loc_m m l : shr_m (shr_record_of_loc m l) = m.
Proof. destruct l as [|[]]; reflexivity. Qed.

Lemma loc_of_shr_record_of_loc m l :
  loc_of_shr_record (shr_record_of_loc m l) = l.
Proof. destruct l as [|[]]; reflexivity. Qed.

Lemma round_nearest_even_bounds m l :
  m <= round_nearest_even m l <= m + 1.
Proof.
  destruct l as [|[]]; cbn [round_nearest_even]; try lia.
  destruct (Z.even m); lia.
Qed.

Lemma fexp_normal z : emin prec emax <= z - prec -> fexp prec emax z = z - prec.
Proof. intros H. unfold fexp. apply Z.max_l. exact H. Qed.

Lemma shr_fexp_normal (q : positive) (e : Z) (l : location) :
  emin prec emax <= Zpos (digits2_pos q) + e - prec ->
  let n := Z.max 0 (Zpos (digits2_pos q) - prec) in
  shr_m (fst (shr_fexp prec emax (Zpos q) e l)) = Zpos q / 2 ^ n /\
  snd (shr_fexp prec emax (Zpos q) e l) = e + n.
Proof.
  intros H n. unfold shr_fexp. cbn [Zdigits2].
  rewrite fexp_normal by exact H.
  remember (Zpos (digits2_pos q) + e - prec - e) as k eqn:Hk.
  destruct k as [|k|k]; cbn [shr fst snd].
  - replace n with 0 by lia. rewrite shr_record_of_loc_m, Z.div_1_r. split; lia.
  - replace n with (Zpos k) by lia.
    rewrite iter_shr_1_m by (rewrite shr_record_of_loc_m; lia).
    rewrite shr_record_of_loc_m. split; reflexivity.
  - replace n with 0 by lia. rewrite shr_record_of_loc_m, Z.div_1_r. split; lia.
Qed.

(** A mantissa of [prec] bits or more, in the normal range, rounds to a
    mantissa of exactly [prec] bits: the truncated mantissa or its
    successor, or 2^52 one binade up when the successor carries. *)
Lemma binary_round_aux_normal (sx : bool) (q : positive) (e : Z) (l : location) :
  let d := Zpos (digits2_pos q) in
  prec <= d ->
  emin prec emax <= e + d - prec ->
  exists (m' : positive) (e' : Z),
    binary_round_aux prec emax sx (Zpos q) e l =
      (if e' <=? emax - prec then S754_finite sx m' e' else S754_infinity sx) /\
    Zpos (digits2_pos m') = prec /\
    ((e' = e + (d - prec) /\
      Zpos q / 2 ^ (d - prec) <= Zpos m' <= Zpos q / 2 ^ (d - prec) + 1) \/
     (e' = e + (d - prec) + 1 /\ Zpos m' = 2 ^ (prec - 1))).
Proof.
  intros d Hd He.
  unfold binary_round_aux.
  destruct (shr_fexp_normal q e l) as [Hm1 He1]; [fold d; lia|].
  fold d in Hm1, He1. rewrite Z.max_r in Hm1, He1 by lia.
  destruct (shr_fexp prec emax (Zpos q) e l) as [mrs1 e1]. cbn [fst snd] in Hm1, He1.
  pose proof (digits2_pos_bounds q) as Bq. fold d in Bq.
  remember (d - prec) as n eqn:Hn0.
  assert (Hpow : 2 ^ (d - 1) = 2 ^ (prec - 1) * 2 ^ n /\ 2 ^ d = 2 ^ prec * 2 ^ n).
  { split; rewrite <- Z.pow_add_r by (unfold prec in *; lia); f_equal; lia. }
  destruct Hpow as [Hp1 Hp2].
  assert (Hn : 0 < 2 ^ n) by (apply Z.pow_pos_nonneg; lia).
  assert (B1 : 2 ^ (prec - 1) <= shr_m mrs1 < 2 ^ prec).
  { rewrite Hm1. split.
    - apply Z.div_le_lower_bound; lia.
    - apply Z.div_lt_upper_bound; lia. }
  pose proof (round_nearest_even_bounds (shr_m mrs1) (loc_of_shr_record mrs1)) as Br.
  set (rnd := round_nearest_even (shr_m mrs1) (loc_of_shr_record mrs1)) in *.
  assert (Hrpos : 0 < rnd) by (change (2 ^ (prec - 1)) with 4503599627370496 in B1; lia).
  destruct rnd as [|r|r] eqn:Hrnd; try lia.
  destruct (Z.eq_dec (Zpos r) (2 ^ prec)) as [Hcarry | Hnocarry].
  - (* the successor carries *)
    assert (Dr : Zpos (digits2_pos r) = prec + 1).
    { apply digits2_pos_unique. rewrite Hcarry. cbn. lia. }
    exists 4503599627370496%positive, (e1 + 1).
    unfold shr_fexp. cbn [Zdigits2]. rewrite Dr.
    rewrite fexp_normal by (unfold emin, prec, emax in *; lia).
    replace (prec + 1 + e1 - prec - e1) with 1 by lia.
    cbn [shr iter_pos fst snd].
    rewrite shr_1_m by (cbn; lia).
    cbn [shr_record_of_loc shr_m]. rewrite Hcarry.
    change (2 ^ prec / 2) with (Zpos 4503599627370496).
    split; [reflexivity|]. split; [reflexivity|]. right. split; [lia|reflexivity].
  - assert (Dr : Zpos (digits2_pos r) = prec).
    { apply digits2_pos_unique. lia. }
    exists r, e1.
    unfold shr_fexp. cbn [Zdigits2]. rewrite Dr.
    rewrite fexp_normal by (unfold emin, prec, emax in *; lia).
    replace (prec + e1 - prec - e1) with 0 by lia.
    cbn [shr shr_record_of_loc shr_m].
    split; [reflexivity|]. split; [reflexivity|]. left. split; [lia|].
    rewrite <- Hm1. lia.
Qed.

Lemma binary_round_aux_exact (sx : bool) (q : positive) (e : Z) :
  Zpos (digits2_pos q) = prec ->
  emin prec emax <= e <= emax - prec ->
  binary_round_aux prec emax sx (Zpos q) e loc_Exact = S754_finite sx q e.
Proof.
  intros Dq He. unfold binary_round_aux, shr_fexp. cbn [Zdigits2].
  rewrite Dq, fexp_normal by lia.
  replace (prec + e - prec - e) with 0 by lia.
  cbn [shr shr_record_of_loc shr_m loc_of_shr_record round_nearest_even Zdigits2].
  rewrite Dq, fexp_normal by lia.
  replace (prec + e - prec - e) with 0 by lia.
  cbn [shr shr_m].
  destruct He as [_ He]. apply Z.leb_le in He. rewrite He. reflexivity.
Qed.

Lemma iter_xO_value (m k : positive) :
  Zpos (Pos.iter xO m k) = Zpos m * 2 ^ Zpos k.
Proof.
  induction k as [|k IH] using Pos.peano_ind.
  - cbn. lia.
  - rewrite Pos.iter_succ, Pos2Z.inj_xO, IH, Pos2Z.inj_succ, Z.pow_succ_r by lia. lia.
Qed.

(** Integers below 2^53 are represented exactly, with a normalised
    mantissa. *)
Lemma of_Z_small (p : positive) :
  Zpos p < 2 ^ prec ->
  exists m : positive,
    of_Z (Zpos p) = S754_finite false m (Zpos (digits2_pos p) - prec) /\
    Zpos (digits2_pos m) = prec /\
    Zpos m = Zpos p * 2 ^ (prec - Zpos (digits2_pos p)).
Proof.
  intros Hp.
  pose proof (digits2_pos_bounds p) as [Blo Bhi].
  assert (Hd : Zpos (digits2_pos p) <= prec).
  { destruct (Z.le_gt_cases (Zpos (digits2_pos p)) prec) as [|Hgt]; [assumption|].
    assert (2 ^ prec <= 2 ^ (Zpos (digits2_pos p) - 1)) by (apply Z.pow_le_mono_r; lia).
    lia. }
  unfold of_Z, binary_normalize, binary_round.
  rewrite Z.add_0_r, fexp_normal by (unfold emin, prec, emax in *; lia).
  unfold shl_align. rewrite Z.sub_0_r.
  remember (Zpos (digits2_pos p) - prec) as k eqn:Hk.
  destruct k as [|k|k]; try lia.
  - exists p. replace (prec - Zpos (digits2_pos p)) with 0 by lia.
    rewrite binary_round_aux_exact by (unfold emin, prec, emax in *; lia).
    repeat split; lia.
  - exists (Pos.iter xO p k).
    assert (V : Zpos (Pos.iter xO p k) = Zpos p * 2 ^ (prec - Zpos (digits2_pos p))).
    { rewrite iter_xO_value. f_equal. f_equal. lia. }
    assert (D : Zpos (digits2_pos (Pos.iter xO p k)) = prec).
    { apply digits2_pos_unique. rewrite V.
      assert (E1 : 2 ^ (prec - 1) = 2 ^ (Zpos (digits2_pos p) - 1) * 2 ^ (prec - Zpos (digits2_pos p))).
      { rewrite <- Z.pow_add_r by lia. f_equal. lia. }
      assert (E2 : 2 ^ prec = 2 ^ Zpos (digits2_pos p) * 2 ^ (prec - Zpos (digits2_pos p))).
      { rewrite <- Z.pow_add_r by lia. f_equal. lia. }
      assert (0 < 2 ^ (prec - Zpos (digits2_pos p))) by (apply Z.pow_pos_nonneg; lia).
      rewrite E1, E2. nia. }
    rewrite binary_round_aux_exact by (unfold emin, prec, emax in *; lia).
    repeat split; assumption.
Qed.

Lemma round_at_least_one (q : positive) (e : Z) (l : location) :
  prec <= Zpos (digits2_pos q) ->
  1 - prec <= e + Zpos (digits2_pos q) - prec ->
  at_least_one (binary_round_aux prec emax false (Zpos q) e l) = true.
Proof.
  intros Hd He.
  destruct (binary_round_aux_normal false q e l Hd) as (m' & e' & -> & Dm & Hcase).
  { unfold emin, prec, emax in *. lia. }
  destruct (e' <=? emax - prec); [|reflexivity].
  cbn [at_least_one]. rewrite Dm, Z.eqb_refl. cbn [andb].
  apply Z.leb_le. destruct Hcase as [[-> _] | [-> _]]; lia.
Qed.

Lemma of_Z_at_least_one (n : Z) : 1 <= n -> at_least_one (of_Z n) = true.
Proof.
  intros Hn. destruct n as [|p|p]; try lia.
  destruct (Z.lt_ge_cases (Zpos p) (2 ^ prec)) as [Hsmall | Hbig].
  - destruct (of_Z_small p Hsmall) as (m & -> & Dm & _).
    cbn [at_least_one]. rewrite Dm, Z.eqb_refl. cbn [andb].
    apply Z.leb_le. pose proof (Pos2Z.is_pos (digits2_pos p)). lia.
  - pose proof (digits2_pos_bounds p) as [Blo Bhi].
    assert (Hd : prec < Zpos (digits2_pos p)).
    { apply (Z.pow_lt_mono_r_iff 2); lia. }
    unfold of_Z, binary_normalize, binary_round.
    rewrite Z.add_0_r, fexp_normal by (unfold emin, prec, emax in *; lia).
    unfold shl_align. rewrite Z.sub_0_r.
    remember (Zpos (digits2_pos p) - prec) as k eqn:Hk.
    destruct k as [|k|k]; try lia.
    apply round_at_least_one; unfold prec in *; lia.
Qed.

Lemma fmul_at_least_one (x y : number) :
  at_least_one x = true -> at_least_one y = true ->
  at_least_one (x * y)%num = true.
Proof.
  destruct x as [sx|[]| |[] mx ex]; try discriminate;
  destruct y as [sy|[]| |[] my ey]; try discriminate; try reflexivity.
  cbn [at_least_one]. intros Hx Hy.
  apply andb_prop in Hx, Hy. destruct Hx as [Dx Ex], Hy as [Dy Ey].
  apply Z.eqb_eq in Dx, Dy. apply Z.leb_le in Ex, Ey.
  unfold fmul, SFmul. cbn [xorb].
  pose proof (digits2_pos_bounds mx) as Bx. pose proof (digits2_pos_bounds my) as By.
  rewrite Dx in Bx. rewrite Dy in By.
  pose proof (digits2_pos_bounds (mx * my)) as Bxy.
  assert (Hd : 2 * prec - 2 < Zpos (digits2_pos (mx * my))).
  { apply (Z.pow_lt_mono_r_iff 2); [lia | lia |].
    rewrite Pos2Z.inj_mul in Bxy.
    replace (2 * prec - 2) with ((prec - 1) + (prec - 1)) by lia.
    rewrite Z.pow_add_r by (unfold prec; lia).
    assert (0 < 2 ^ (prec - 1)) by (apply Z.pow_pos_nonneg; unfold prec; lia).
    nia. }
  apply round_at_least_one; unfold prec in *; lia.
Qed.

Lemma at_most_one_pos_unit (x : number) :
  at_most_one_pos x -> in_unit_interval x = true.
Proof.
  intros (m & e & -> & H). unfold in_unit_interval. apply andb_true_intro. split.
  - reflexivity.
  - change (of_Z 1) with (S754_finite false 4503599627370496 (-52)).
    unfold fleb, SFleb, SFcompare.
    destruct H as [H | [-> H]].
    + apply Z.compare_lt_iff in H. change (1 - prec) with (-52) in H.
      rewrite H. reflexivity.
    + change (1 - prec) with (-52). rewrite Z.compare_refl.
      change (2 ^ (prec - 1)) with (Zpos 4503599627370496) in H.
      injection H as ->. reflexivity.
Qed.

Lemma div_eucl_div_mod a b : Z.div_eucl a b = (a / b, a mod b).
Proof. unfold Z.div, Z.modulo. destruct (Z.div_eucl a b). reflexivity. Qed.

(** Quotient of two normalised positive numbers, the first one smaller. *)
Lemma fdiv_lt_normal (m1 m2 : positive) (e1 e2 : Z) :
  Zpos (digits2_pos m1) = prec ->
  Zpos (digits2_pos m2) = prec ->
  1 - prec <= e1 <= 0 -> 1 - prec <= e2 <= 0 ->
  e1 < e2 \/ (e1 = e2 /\ Zpos m1 < Zpos m2) ->
  at_most_one_pos (S754_finite false m1 e1 / S754_finite false m2 e2)%num.
Proof.
  intros D1 D2 R1 R2 Hlt.
  pose proof (digits2_pos_bounds m1) as B1. rewrite D1 in B1.
  pose proof (digits2_pos_bounds m2) as B2. rewrite D2 in B2.
  unfold fdiv, SFdiv, SFdiv_core_binary. cbn [Zdigits2 xorb].
  rewrite D1, D2.
  rewrite fexp_normal by (unfold emin, prec, emax in *; lia).
  rewrite Z.min_l by (unfold prec; lia).
  replace (e1 - e2 - (prec + e1 - (prec + e2) - prec)) with prec by lia.
  cbv beta iota delta [prec] in *. rewrite Z.shiftl_mul_pow2 by lia.
  rewrite div_eucl_div_mod.
  pose proof (Z_div_mod_eq_full (Zpos m1 * 2 ^ 53) (Zpos m2)) as Hdm.
  pose proof (Z.mod_pos_bound (Zpos m1 * 2 ^ 53) (Zpos m2) ltac:(lia)) as Hr.
  set (q := Zpos m1 * 2 ^ 53 / Zpos m2) in *.
  set (r := (Zpos m1 * 2 ^ 53) mod Zpos m2) in *.
  change (2 ^ (53 - 1)) with 4503599627370496 in *.
  change (2 ^ 53) with 9007199254740992 in *.
  assert (Hq : 4503599627370496 <= q < 18014398509481984) by nia.
  destruct q as [|qp|qp] eqn:Eq; try lia.
  pose proof (digits2_pos_bounds qp) as Bq.
  assert (Hd1 : 52 < Zpos (digits2_pos qp)).
  { apply (Z.pow_lt_mono_r_iff 2); [lia|lia|]. change (2 ^ 52) with 4503599627370496. lia. }
  assert (Hd2 : Zpos (digits2_pos qp) - 1 < 54).
  { apply (Z.pow_lt_mono_r_iff 2); [lia|lia|]. change (2 ^ 54) with 18014398509481984. lia. }
  change (binary_round_aux 53 emax) with (binary_round_aux prec emax).
  destruct (binary_round_aux_normal false qp (53 + e1 - (53 + e2) - 53) (new_location (Zpos m2) r))
    as (m' & e' & -> & Dm & Hcase).
  { unfold prec. lia. }
  { unfold emin, prec, emax. lia. }
  assert (He' : (e' <=? emax - prec) = true).
  { apply Z.leb_le. unfold emax, prec in *. destruct Hcase as [[-> _] | [-> _]]; lia. }
  rewrite He'. exists m', e'. split; [reflexivity|].
  assert (Hsmall : e1 = e2 -> Zpos (digits2_pos qp) = 53).
  { intros ->. destruct Hlt as [|[_ Hm]]; [lia|].
    assert (Zpos qp < 9007199254740992) by nia.
    apply digits2_pos_unique.
    change (2 ^ (53 - 1)) with 4503599627370496. change (2 ^ 53) with 9007199254740992. lia. }
  cbv beta iota delta [prec] in *.
  change (2 ^ (53 - 1)) with 4503599627370496 in *.
  destruct Hcase as [[-> _] | [-> ->]].
  - left. destruct (Z.eq_dec e1 e2) as [E|E]; [rewrite (Hsmall E)|]; lia.
  - destruct (Z.eq_dec e1 e2) as [E|E]; [rewrite (Hsmall E)|]; lia.
Qed.

Lemma fdiv_self_normal (m : positive) (e : Z) :
  Zpos (digits2_pos m) = prec ->
  (S754_finite false m e / S754_finite false m e)%num = of_Z 1.
Proof.
  intros D.
  unfold fdiv, SFdiv, SFdiv_core_binary. cbn [Zdigits2 xorb].
  rewrite D, !Z.sub_diag.
  change (Z.min (fexp prec emax 0) 0) with (-53).
  change (0 - -53) with 53.
  cbv beta iota. rewrite Z.shiftl_mul_pow2 by lia.
  rewrite div_eucl_div_mod, (Z.mul_comm (Zpos m)), Z.div_mul, Z.mod_mul by lia.
  replace (new_location (Zpos m) 0) with loc_Exact
    by (unfold new_location; destruct (Z.even (Zpos m)); reflexivity).
  reflexivity.
Qed.

(** The ratio of two counters, the first at most the second. *)
Lemma fdiv_of_Z_unit (b t : Z) :
  0 <= b <= t -> 1 <= t < 2 ^ prec ->
  in_unit_interval (of_Z b / of_Z t)%num = true.
Proof.
  intros Hb Ht.
  destruct t as [|tp|tp]; try lia.
  destruct (of_Z_small tp) as (mt & Et & Dt & Vt); [lia|].
  destruct b as [|bp|bp]; try lia.
  - rewrite Et. reflexivity.
  - destruct (of_Z_small bp) as (mb & Eb & Db & Vb); [lia|].
    rewrite Eb, Et.
    destruct (Z.eq_dec (Zpos bp) (Zpos tp)) as [Heq | Hne].
    + injection Heq as ->. replace mb with mt by lia.
      rewrite fdiv_self_normal by assumption. reflexivity.
    + apply at_most_one_pos_unit.
      pose proof (digits2_pos_bounds bp) as Bb.
      pose proof (digits2_pos_bounds tp) as Bt.
      pose proof (Pos2Z.is_pos (digits2_pos bp)).
      pose proof (Pos2Z.is_pos (digits2_pos tp)).
      assert (Hdle : Zpos (digits2_pos bp) <= Zpos (digits2_pos tp)).
      { destruct (Z.le_gt_cases (Zpos (digits2_pos bp)) (Zpos (digits2_pos tp))) as [|Hgt];
          [assumption|].
        assert (2 ^ Zpos (digits2_pos tp) <= 2 ^ (Zpos (digits2_pos bp) - 1))
          by (apply Z.pow_le_mono_r; lia).
        lia. }
      assert (Hdt : Zpos (digits2_pos tp) <= prec).
      { destruct (Z.le_gt_cases (Zpos (digits2_pos tp)) prec) as [|Hgt]; [assumption|].
        assert (2 ^ prec <= 2 ^ (Zpos (digits2_pos tp) - 1)) by (apply Z.pow_le_mono_r; lia).
        lia. }
      apply fdiv_lt_normal; try assumption; try (unfold prec in *; lia).
      destruct (Z.eq_dec (Zpos (digits2_pos bp)) (Zpos (digits2_pos tp))) as [E|E].
      * right. split; [lia|]. rewrite Vb, Vt, E.
        apply Z.mul_lt_mono_pos_r; [apply Z.pow_pos_nonneg; lia | lia].
      * left. lia.
Qed.

(** * Properties of the simulator *)

Section RunFacts.

Variable Math_log : number -> number.
Variable Math_random : nat -> number.
Variables lambda mu : number.
Variable servers : Z.
Variable timeLimit : number.

Let body := loop_body Math_log Math_random lambda mu servers.
Let cond := loop_condition timeLimit.
Let loop := while_loop Math_log Math_random lambda mu servers timeLimit.
Let after := state_after Math_log Math_random lambda mu servers.

(** The two branches of the body. *)
Lemma loop_body_admit (st : sim_state) :
  serversInUse st < servers ->
  blocked (body st) = blocked st /\
  served (body st) = served st + 1 /\
  serversInUse (body st) = serversInUse st + 1 /\
  random_calls (body st) = S (S (random_calls st)) /\
  length (timers (body st)) = S (length (timers st)).
Proof.
  intros H. unfold body, loop_body.
  apply Z.ltb_lt in H. rewrite H. cbn.
  repeat split. rewrite length_app. cbn. lia.
Qed.

Lemma loop_body_reject (st : sim_state) :
  servers <= serversInUse st ->
  blocked (body st) = blocked st + 1 /\
  served (body st) = served st /\
  serversInUse (body st) = serversInUse st /\
  random_calls (body st) = S (S (random_calls st)) /\
  timers (body st) = timers st.
Proof.
  intros H. unfold body, loop_body.
  apply Z.ltb_ge in H. rewrite H. cbn. repeat split.
Qed.

Lemma after_succ (n : nat) : after (S n) = body (after n).
Proof. reflexivity. Qed.

(** Closed form of the counters: the first [servers] arrivals are
    admitted and every later one is blocked. *)
Lemma after_counters (n : nat) :
  let st := after n in
  served st = Z.min (Z.of_nat n) (Z.max 0 servers) /\
  blocked st = Z.of_nat n - served st /\
  serversInUse st = served st /\
  Z.of_nat (length (timers st)) = served st /\
  random_calls st = (2 * n)%nat.
Proof.
  induction n as [|n IH].
  - cbn. repeat split; lia.
  - cbn zeta in *. rewrite after_succ.
    destruct IH as (Hs & Hb & Hu & Ht & Hr).
    destruct (Z.lt_ge_cases (serversInUse (after n)) servers) as [Hlt | Hge].
    + destruct (loop_body_admit (after n) Hlt) as (B & V & U & R & T).
      rewrite B, V, U, R, T. repeat split; lia.
    + destruct (loop_body_reject (after n) Hge) as (B & V & U & R & T).
      rewrite B, V, U, R, T. repeat split; lia.
Qed.

(** The loop returns the state after the first iteration count at which
    the condition fails. *)
Lemma while_loop_iter (fuel : nat) : forall st st',
  while_loop Math_log Math_random lambda mu servers timeLimit fuel st = Some st' ->
  exists n, (n <= fuel)%nat /\ st' = Nat.iter n body st /\
            cond st' = false /\
            forall i, (i < n)%nat -> cond (Nat.iter i body st) = true.
Proof.
  induction fuel as [|fuel IH]; intros st st' H; cbn in H.
  - destruct (loop_condition timeLimit st) eqn:E; [discriminate|].
    injection H as <-. exists 0%nat.
    split; [lia|]. split; [reflexivity|]. split; [exact E|]. intros i Hi; lia.
  - destruct (loop_condition timeLimit st) eqn:E.
    + destruct (IH _ _ H) as (n & Hn & Hst & Hc & Hall).
      exists (S n).
      split; [lia|]. split; [|split; [exact Hc|]].
      * rewrite Hst. symmetry. apply Nat.iter_succ_r.
      * intros [|i] Hi; [exact E|].
        rewrite Nat.iter_succ_r. apply Hall. lia.
    + injection H as <-. exists 0%nat.
      split; [lia|]. split; [reflexivity|]. split; [exact E|]. intros i Hi; lia.
Qed.

(** Conversely the loop returns as soon as the fuel covers that count. *)
Lemma while_loop_enough_fuel (n : nat) : forall st fuel,
  cond (Nat.iter n body st) = false ->
  (n <= fuel)%nat ->
  exists st', while_loop Math_log Math_random lambda mu servers timeLimit fuel st = Some st'.
Proof.
  induction n as [|n IH]; intros st fuel Hc Hle.
  - cbn in Hc. unfold cond in Hc.
    destruct fuel; cbn; rewrite Hc; eauto.
  - destruct fuel as [|fuel]; [lia|]. cbn.
    destruct (loop_condition timeLimit st) eqn:E; [|eauto].
    apply IH; [|lia]. rewrite <- Nat.iter_succ_r. exact Hc.
Qed.

(** The state in which the loop is left. *)
Lemma loop_exit_state (fuel : nat) (st : sim_state) :
  loop fuel initial_state = Some st ->
  exists n : nat,
    (n <= fuel)%nat /\ st = after n /\
    blocked st + served st = Z.of_nat n /\
    cond (after n) = false /\
    forall i, (i < n)%nat -> cond (after i) = true.
Proof.
  intros Hrun.
  destruct (while_loop_iter fuel _ _ Hrun) as (n & Hn & Hst & Hc & Hall).
  change (st = after n) in Hst.
  pose proof (after_counters n) as (_ & Hb & _). rewrite <- Hst in Hb.
  exists n. split; [exact Hn|]. split; [exact Hst|]. split; [lia|].
  split; [rewrite <- Hst; exact Hc | exact Hall].
Qed.

(** With a single server only the first arrival is ever admitted, whatever
    the random source returns. *)
Lemma single_server_admits_only_first (n : nat) :
  servers = 1 -> (1 <= n)%nat ->
  served (after n) = 1 /\ blocked (after n) = Z.of_nat n - 1.
Proof.
  intros Hs Hn. destruct (after_counters n) as (Hv & Hb & _). lia.
Qed.

(** Once the event loop fires the pending callbacks, after the call has
    returned, [serversInUse] is back to 0. *)
Lemma fire_timers_after (n : nat) :
  serversInUse (fire_timers (after n)) = 0.
Proof.
  destruct (after_counters n) as (_ & _ & Hu & Ht & _). cbn. lia.
Qed.

(** A run whose horizon is not positive never enters the loop and divides
    0 by 0. *)
Lemma nonpositive_horizon_returns_NaN (fuel : nat) :
  (of_Z 0 <? timeLimit)%num = false ->
  simulateBlockingProbability Math_log Math_random lambda mu servers timeLimit fuel
  = Some NaN.
Proof.
  intros H. unfold simulateBlockingProbability.
  destruct fuel; cbn [while_loop]; unfold loop_condition;
    cbn [currentTime initial_state]; rewrite H; reflexivity.
Qed.

(** C9 (amended): within one run [serversInUse] never decreases, because
    no [setTimeout] callback runs before the function returns: every
    scheduled decrement is still pending, so [serversInUse] equals the number
    of pending timers.  Once [serversInUse] has reached [servers], every
    later arrival of the run is counted as blocked.  Throughout the loop
    [0 <= serversInUse <= max(0, servers)]: the bound
    [serversInUse <= servers] holds for a server count that is not negative,
    and for a negative one [serversInUse] stays 0, above [servers]. *)
Theorem serversInUse_never_released (n : nat) :
  serversInUse (after n) <= serversInUse (after (S n)) /\
  serversInUse (after n) = Z.of_nat (length (timers (after n))) /\
  (servers <= serversInUse (after n) ->
   forall m, (n <= m)%nat ->
     blocked (after (S m)) = blocked (after m) + 1 /\
     served (after (S m)) = served (after m) /\
     serversInUse (after (S m)) = serversInUse (after m)) /\
  0 <= serversInUse (after n) /\
  (0 <= servers -> serversInUse (after n) <= servers) /\
  serversInUse (after n) <= Z.max 0 servers.
Proof.
  pose proof (after_counters n) as (Hv & Hb & Hu & Ht & _).
  pose proof (after_counters (S n)) as (Hv' & Hb' & Hu' & _).
  split; [lia|]. split; [lia|]. split; [|split; [lia | split; lia]].
  intros Hfull m Hm.
  pose proof (after_counters m) as (Mv & Mb & Mu & _).
  pose proof (after_counters (S m)) as (Mv' & Mb' & Mu' & _).
  lia.
Qed.

(** C6 (amended): every execution of the loop body calls [Math.random]
    twice, once for the inter-arrival gap and once for the service time,
    whether the arrival is admitted or blocked.  A blocked arrival
    increments [blocked] and schedules nothing: its service time is drawn
    and discarded.  An admitted arrival hands its service time, in
    milliseconds, to [setTimeout]. *)
Theorem every_arrival_draws_service_time (st : sim_state) :
  random_calls (body st) = (random_calls st + 2)%nat /\
  (servers <= serversInUse st ->
   blocked (body st) = blocked st + 1 /\
   served (body st) = served st /\
   serversInUse (body st) = serversInUse st /\
   timers (body st) = timers st) /\
  (serversInUse st < servers ->
   blocked (body st) = blocked st /\
   served (body st) = served st + 1 /\
   timers (body st) =
     timers st ++
     [((- Math_log (Math_random (S (random_calls st))) / mu) * of_Z 1000)%num]).
Proof.
  split; [|split].
  - unfold body, loop_body. destruct (serversInUse st <? servers); cbn; lia.
  - intros H. destruct (loop_body_reject st H) as (B & V & U & _ & T). auto.
  - intros H. unfold body, loop_body. apply Z.ltb_lt in H. rewrite H.
    cbn. auto.
Qed.

(** C4 (amended): a run ends with [served + blocked = 0] exactly when the
    horizon is not positive, so that the loop body never runs; the function
    then returns the quotient 0/0, that is NaN, as an ordinary result.  There
    is no failure value and no sentinel. *)
Theorem no_arrival_run_returns_NaN (fuel : nat) :
  ((of_Z 0 <? timeLimit)%num = false ->
   loop fuel initial_state = Some initial_state /\
   simulateBlockingProbability Math_log Math_random lambda mu servers timeLimit fuel
   = Some NaN) /\
  (forall st : sim_state,
     loop fuel initial_state = Some st ->
     blocked st + served st = 0 ->
     (of_Z 0 <? timeLimit)%num = false /\
     st = initial_state /\
     simulateBlockingProbability Math_log Math_random lambda mu servers timeLimit fuel
     = Some NaN).
Proof.
  split.
  - intros H0. split; [|apply nonpositive_horizon_returns_NaN; exact H0].
    unfold loop. destruct fuel; cbn [while_loop]; unfold loop_condition;
      cbn [currentTime initial_state]; rewrite H0; reflexivity.
  - intros st Hrun Hzero.
    destruct (loop_exit_state fuel st Hrun) as (n & _ & Hst & Hsum & Hc & _).
    assert (n = 0%nat) by lia. subst n. change (st = initial_state) in Hst. subst st.
    assert (H0 : (of_Z 0 <? timeLimit)%num = false) by exact Hc.
    split; [exact H0|]. split; [reflexivity|].
    apply nonpositive_horizon_returns_NaN. exact H0.
Qed.

(** C10 (implicit): when the horizon is positive the loop body runs at
    least once, and the arrival that carries [currentTime] to or past
    [timeLimit] is counted like any other.  If the clock reaches the horizon
    within [fuel] iterations, the call returns: the loop is left after
    [n >= 1] iterations, the last of which was entered below the horizon,
    and [blocked + served = n].  The returned quotient is therefore not 0/0;
    it is a number of [0, 1] (counters stay below 2^53, where [++] is
    exact). *)
Theorem positive_horizon_counts_an_arrival (fuel k : nat) :
  (of_Z 0 <? timeLimit)%num = true ->
  (k <= fuel)%nat -> cond (after k) = false ->
  Z.of_nat fuel < 2 ^ 53 ->
  exists (n : nat) (st : sim_state),
    loop fuel initial_state = Some st /\
    (1 <= n <= k)%nat /\ st = after n /\
    cond (after (n - 1)) = true /\ cond (after n) = false /\
    blocked st + served st = Z.of_nat n /\
    0 <= blocked st /\ 0 <= served st /\
    simulateBlockingProbability Math_log Math_random lambda mu servers timeLimit fuel
    = Some (final_ratio st) /\
    isNaN (final_ratio st) = false /\
    in_unit_interval (final_ratio st) = true.
Proof.
  intros Hpos Hk Hreach Hbound.
  destruct (while_loop_enough_fuel k initial_state fuel Hreach Hk) as (st & Hrun).
  destruct (loop_exit_state fuel st Hrun) as (n & Hn & Hst & Hsum & Hc & Hall).
  pose proof (after_counters n) as (Hv & Hb & _). rewrite <- Hst in Hv, Hb.
  assert (Hn1 : (1 <= n)%nat).
  { destruct n; [|lia].
    unfold cond, loop_condition in Hc. cbn [currentTime initial_state] in Hc.
    change (currentTime (after 0)) with (of_Z 0) in Hc. congruence. }
  assert (Hnk : (n <= k)%nat).
  { destruct (Nat.le_gt_cases n k) as [|Hgt]; [assumption|].
    rewrite (Hall k Hgt) in Hreach. discriminate. }
  assert (Hunit : in_unit_interval (final_ratio st) = true).
  { unfold final_ratio. apply fdiv_of_Z_unit; unfold prec; lia. }
  exists n, st. split; [exact Hrun|]. split; [lia|]. split; [exact Hst|].
  split; [apply (Hall (n - 1)%nat); lia|].
  split; [exact Hc|].
  split; [lia|]. split; [lia|]. split; [lia|].
  split; [unfold simulateBlockingProbability; rewrite Hrun; reflexivity|].
  split; [|exact Hunit].
  destruct (final_ratio st); try reflexivity. discriminate Hunit.
Qed.

End RunFacts.


(** * Properties of the analytical evaluator *)

(** The recursion of the source: [n <= 1 ? 1 : n * factorial(n - 1)]. *)
Lemma factorial_eq (n : Z) :
  factorial n = if n <=? 1 then of_Z 1 else (of_Z n * factorial (n - 1))%num.
Proof.
  unfold factorial.
  destruct (Z.to_nat n) as [|d] eqn:E.
  - cbn [factorial_rec]. assert (H : (n <=? 1) = true) by (apply Z.leb_le; lia).
    rewrite H. reflexivity.
  - cbn [factorial_rec]. destruct (n <=? 1); [reflexivity|].
    replace (Z.to_nat (n - 1)) with d by lia. reflexivity.
Qed.

Lemma factorial_rec_at_least_one (d : nat) : forall n,
  at_least_one (factorial_rec d n) = true.
Proof.
  induction d as [|d IH]; intros n; cbn [factorial_rec]; [reflexivity|].
  destruct (n <=? 1) eqn:E; [reflexivity|].
  apply Z.leb_gt in E.
  apply fmul_at_least_one; [apply of_Z_at_least_one; lia | apply IH].
Qed.

(** A factorial is a number at least 1, or +Infinity once it overflows: it
    is never 0 and never NaN. *)
Lemma factorial_at_least_one (n : Z) : at_least_one (factorial n) = true.
Proof. apply factorial_rec_at_least_one. Qed.

Lemma pow_nat_zero_base (n : nat) : pow_nat (of_Z 0) (S n) = pos_zero.
Proof.
  induction n as [|n IH]; [reflexivity|].
  change (pow_nat (of_Z 0) (S (S n))) with (pow_nat (of_Z 0) (S n) * of_Z 0)%num.
  rewrite IH. reflexivity.
Qed.

Lemma Math_pow_zero_base (k : Z) : 0 < k -> Math_pow (of_Z 0) k = pos_zero.
Proof.
  intros Hk. destruct k as [|p|p]; try lia. cbn [Math_pow].
  destruct (Pos2Nat.is_succ p) as [n ->]. apply pow_nat_zero_base.
Qed.

Lemma zero_over_at_least_one (y : number) :
  at_least_one y = true -> (pos_zero / y)%num = pos_zero.
Proof. destruct y as [s|[]| |[] m e]; try discriminate; reflexivity. Qed.

(** A term of the sum at zero load and index [k >= 1] is 0. *)
Lemma term_zero_load (k : Z) :
  0 < k -> (Math_pow (of_Z 0) k / factorial k)%num = pos_zero.
Proof.
  intros Hk. rewrite Math_pow_zero_base by exact Hk.
  apply zero_over_at_least_one, factorial_at_least_one.
Qed.

Lemma sum_zero_load_tail (l : list Z) :
  Forall (fun k => 0 < k) l ->
  fold_left (fun den k => (den + Math_pow (of_Z 0) k / factorial k)%num) l (of_Z 1)
  = of_Z 1.
Proof.
  induction l as [|k l IH]; intros H; [reflexivity|].
  inversion H as [|? ? Hk Hl]; subst. cbn [fold_left].
  rewrite term_zero_load by exact Hk.
  change (of_Z 1 + pos_zero)%num with (of_Z 1). apply IH, Hl.
Qed.

Lemma loop_indices_cons (S : Z) :
  0 <= S -> loop_indices S = 0 :: map Z.of_nat (seq 1 (Z.to_nat S)).
Proof.
  intros HS. unfold loop_indices.
  replace (Z.to_nat (S + 1)) with (Datatypes.S (Z.to_nat S)) by lia.
  reflexivity.
Qed.

Lemma loop_indices_neg (S : Z) : S < 0 -> loop_indices S = [].
Proof.
  intros HS. unfold loop_indices.
  replace (Z.to_nat (S + 1)) with 0%nat by lia. reflexivity.
Qed.

(** At zero load the sum reduces to its first term, 1. *)
Lemma denominator_zero_load (S : Z) :
  0 <= S -> denominator (of_Z 0) S = of_Z 1.
Proof.
  intros HS. unfold denominator. rewrite loop_indices_cons by exact HS.
  cbn [fold_left].
  change (of_Z 0 + Math_pow (of_Z 0) 0 / factorial 0)%num with (of_Z 1).
  apply sum_zero_load_tail.
  apply Forall_forall. intros k Hk.
  apply in_map_iff in Hk. destruct Hk as (i & <- & Hi).
  apply in_seq in Hi. lia.
Qed.

(** Dividing by zero never gives a finite number. *)
Lemma fdiv_by_zero_not_finite (x : number) (s : bool) :
  isFinite (x / S754_zero s)%num = false.
Proof. destruct x as [sx|sx| |sx m e]; reflexivity. Qed.

(** The closed form of the specification is a probability for every
    positive load. *)
Lemma fact_Q_pos (n : nat) : (0 < fact_Q n)%Q.
Proof.
  induction n as [|n IH]; [reflexivity|].
  cbn [fact_Q]. apply Qmult_lt_0_compat; [|exact IH].
  unfold Qlt. cbn. lia.
Qed.

Lemma term_Q_pos (A : Q) (k : nat) : (0 < A)%Q -> (0 < term_Q A k)%Q.
Proof.
  intros HA. unfold term_Q.
  apply Qlt_shift_div_l; [apply fact_Q_pos|].
  rewrite Qmult_0_l. apply Qpower_0_lt, HA.
Qed.

Lemma sum_terms_Q_ge_term (A : Q) (S : nat) :
  (0 < A)%Q -> (term_Q A S <= sum_terms_Q A S)%Q.
Proof.
  intros HA. destruct S as [|S]; cbn [sum_terms_Q]; [apply Qle_refl|].
  assert (H : (0 <= sum_terms_Q A S)%Q).
  { clear -HA. induction S as [|S IH]; cbn [sum_terms_Q].
    - apply Qlt_le_weak, term_Q_pos, HA.
    - apply Qle_trans with (0 + 0)%Q; [discriminate|].
      apply Qplus_le_compat; [exact IH | apply Qlt_le_weak, term_Q_pos, HA]. }
  rewrite <- (Qplus_0_l (term_Q A (Datatypes.S S))) at 1.
  apply Qplus_le_compat; [exact H | apply Qle_refl].
Qed.

Lemma closed_form_is_probability (A : Q) (S : nat) :
  (0 < A)%Q ->
  (0 < erlangB_closed_form A S)%Q /\ (erlangB_closed_form A S <= 1)%Q.
Proof.
  intros HA.
  assert (Ht := term_Q_pos A S HA).
  assert (Hs := sum_terms_Q_ge_term A S HA).
  assert (Hpos : (0 < sum_terms_Q A S)%Q) by (eapply Qlt_le_trans; eassumption).
  unfold erlangB_closed_form. split.
  - apply Qlt_shift_div_l; [exact Hpos|]. rewrite Qmult_0_l. exact Ht.
  - apply Qle_shift_div_r; [exact Hpos|]. rewrite Qmult_1_l. exact Hs.
Qed.

(** ** The specification's formulas in exact arithmetic

    The recurrence is a probability, it decreases with the number of
    servers and increases with the load, and it computes the closed form. *)

Section ExactErlangB.

Local Open Scope Q_scope.

Lemma inject_nat_succ (k : nat) :
  inject_Z (Z.of_nat (S k)) == inject_Z (Z.of_nat k) + 1.
Proof. rewrite Nat2Z.inj_succ. unfold Z.succ. rewrite inject_Z_plus. reflexivity. Qed.

Lemma inject_nat_nonneg (k : nat) : 0 <= inject_Z (Z.of_nat k).
Proof. change 0 with (inject_Z 0). rewrite <- Zle_Qle. lia. Qed.

Lemma recurrence_bounds (A : Q) (S : nat) :
  0 <= A -> 0 <= erlangB_recurrence A S /\ erlangB_recurrence A S <= 1.
Proof.
  intros HA. induction S as [|k [IH0 IH1]]; [split; discriminate|].
  cbn [erlangB_recurrence].
  set (x := A * erlangB_recurrence A k).
  assert (Hx : 0 <= x) by (apply Qmult_le_0_compat; assumption).
  pose proof (inject_nat_succ k) as Hk. pose proof (inject_nat_nonneg k) as Hk0.
  set (n := inject_Z (Z.of_nat (Datatypes.S k))) in *.
  assert (Hpos : 0 < n + x) by lra.
  split.
  - apply Qle_shift_div_l; [exact Hpos | lra].
  - apply Qle_shift_div_r; [exact Hpos | lra].
Qed.

(** Carried load: A (1 - B(A, k)) <= k. *)
Lemma carried_load_bound (A : Q) (k : nat) :
  0 <= A -> A * (1 - erlangB_recurrence A k) <= inject_Z (Z.of_nat k).
Proof.
  intros HA. induction k as [|k IH].
  - change (A * (1 - 1) <= 0). lra.
  - destruct (recurrence_bounds A k HA) as [B0 B1].
    cbn [erlangB_recurrence].
    set (b := erlangB_recurrence A k) in *.
    pose proof (inject_nat_succ k) as Hk. pose proof (inject_nat_nonneg k) as Hk0.
    set (n := inject_Z (Z.of_nat (S k))) in *.
    set (m := inject_Z (Z.of_nat k)) in *.
    assert (Hx : 0 <= A * b) by (apply Qmult_le_0_compat; assumption).
    assert (Hpos : 0 < n + A * b) by lra.
    assert (E : A * (1 - A * b / (n + A * b)) == A * n / (n + A * b)).
    { field. lra. }
    rewrite E. apply Qle_shift_div_r; [exact Hpos|].
    assert (0 <= n * (A * b)) by (apply Qmult_le_0_compat; lra).
    assert (A * n <= n * n + n * (A * b)); [|lra].
    assert (H1 : A <= n + A * b) by lra.
    assert (H2 : A * n <= (n + A * b) * n) by (apply Qmult_le_compat_r; lra).
    lra.
Qed.

Lemma recurrence_decreasing_step (A : Q) (k : nat) :
  0 <= A -> erlangB_recurrence A (S k) <= erlangB_recurrence A k.
Proof.
  intros HA.
  destruct (recurrence_bounds A k HA) as [B0 B1].
  pose proof (carried_load_bound A k HA) as Hc.
  cbn [erlangB_recurrence].
  set (b := erlangB_recurrence A k) in *.
  pose proof (inject_nat_succ k) as Hk. pose proof (inject_nat_nonneg k) as Hk0.
  set (n := inject_Z (Z.of_nat (S k))) in *.
  set (m := inject_Z (Z.of_nat k)) in *.
  assert (Hx : 0 <= A * b) by (apply Qmult_le_0_compat; assumption).
  assert (Hpos : 0 < n + A * b) by lra.
  apply Qle_shift_div_r; [exact Hpos|].
  assert (H : A * (1 - b) * b <= n * b) by (apply Qmult_le_compat_r; lra).
  lra.
Qed.

Lemma recurrence_monotone_servers (A : Q) (S1 S2 : nat) :
  0 <= A -> (S1 <= S2)%nat ->
  erlangB_recurrence A S2 <= erlangB_recurrence A S1.
Proof.
  intros HA H. induction H as [|S2 H IH]; [apply Qle_refl|].
  eapply Qle_trans; [apply recurrence_decreasing_step; exact HA | exact IH].
Qed.

Lemma recurrence_monotone_load (A1 A2 : Q) (S : nat) :
  0 <= A1 -> A1 <= A2 ->
  erlangB_recurrence A1 S <= erlangB_recurrence A2 S.
Proof.
  intros H1 H12. assert (H2 : 0 <= A2) by lra.
  induction S as [|k IH]; [apply Qle_refl|].
  destruct (recurrence_bounds A1 k H1) as [B10 B11].
  destruct (recurrence_bounds A2 k H2) as [B20 B21].
  cbn [erlangB_recurrence].
  set (b1 := erlangB_recurrence A1 k) in *.
  set (b2 := erlangB_recurrence A2 k) in *.
  pose proof (inject_nat_succ k) as Hk. pose proof (inject_nat_nonneg k) as Hk0.
  set (n := inject_Z (Z.of_nat (S k))) in *.
  assert (Hx1 : 0 <= A1 * b1) by (apply Qmult_le_0_compat; assumption).
  assert (Hx2 : 0 <= A2 * b2) by (apply Qmult_le_0_compat; assumption).
  assert (Hx : A1 * b1 <= A2 * b2).
  { apply Qle_trans with (A1 * b2).
    - rewrite !(Qmult_comm A1). apply Qmult_le_compat_r; assumption.
    - apply Qmult_le_compat_r; assumption. }
  set (x1 := A1 * b1) in *. set (x2 := A2 * b2) in *.
  assert (P1 : 0 < n + x1) by lra. assert (P2 : 0 < n + x2) by lra.
  apply Qle_shift_div_r; [exact P1|].
  assert (E : x2 / (n + x2) * (n + x1) == (x2 * (n + x1)) / (n + x2)) by (field; lra).
  rewrite E. apply Qle_shift_div_l; [exact P2|].
  assert (n * x1 <= n * x2); [|lra].
  rewrite !(Qmult_comm n). apply Qmult_le_compat_r; lra.
Qed.

Lemma term_Q_nonneg (A : Q) (k : nat) : 0 <= A -> 0 <= term_Q A k.
Proof.
  intros HA. unfold term_Q.
  apply Qle_shift_div_l; [apply fact_Q_pos|].
  rewrite Qmult_0_l. apply Qpower_0_le, HA.
Qed.

Lemma term_Q_succ (A : Q) (k : nat) :
  term_Q A (S k) == A * term_Q A k / inject_Z (Z.of_nat (S k)).
Proof.
  unfold term_Q. cbn [fact_Q].
  pose proof (fact_Q_pos k) as Hf.
  pose proof (inject_nat_succ k) as Hk. pose proof (inject_nat_nonneg k) as Hk0.
  assert (E : A ^ Z.of_nat (S k) == A ^ Z.of_nat k * A).
  { rewrite Nat2Z.inj_succ. unfold Z.succ.
    rewrite Qpower_plus' by lia. rewrite Qpower_1_r. reflexivity. }
  rewrite E. field. split; lra.
Qed.

Lemma sum_terms_Q_pos (A : Q) (S : nat) : 0 <= A -> 0 < sum_terms_Q A S.
Proof.
  intros HA. induction S as [|k IH]; cbn [sum_terms_Q].
  - reflexivity.
  - pose proof (term_Q_nonneg A (Datatypes.S k) HA). lra.
Qed.

(** The recurrence of the specification computes its closed form. *)
Lemma recurrence_closed_form (A : Q) (S : nat) :
  0 <= A -> erlangB_recurrence A S == erlangB_closed_form A S.
Proof.
  intros HA. induction S as [|k IH].
  - reflexivity.
  - cbn [erlangB_recurrence]. rewrite IH.
    unfold erlangB_closed_form. cbn [sum_terms_Q].
    rewrite (term_Q_succ A k).
    pose proof (sum_terms_Q_pos A k HA) as Hs.
    pose proof (term_Q_nonneg A k HA) as Ht.
    pose proof (inject_nat_succ k) as Hk. pose proof (inject_nat_nonneg k) as Hk0.
    set (n := inject_Z (Z.of_nat (Datatypes.S k))) in *.
    set (T := term_Q A k) in *. set (Sg := sum_terms_Q A k) in *.
    assert (Hat : 0 <= A * T) by (apply Qmult_le_0_compat; assumption).
    assert (Hns : 0 < n * Sg) by (apply Qmult_lt_0_compat; lra).
    field. repeat split; try lra.
Qed.

(** The closed form is monotonic in exact arithmetic: what the evaluator
    loses at large arguments is lost to overflow only. *)
Lemma closed_form_monotone :
  (forall (S : nat) (A1 A2 : Q),
     0 <= A1 -> A1 <= A2 ->
     erlangB_closed_form A1 S <= erlangB_closed_form A2 S) /\
  (forall (A : Q) (S1 S2 : nat),
     0 <= A -> (S1 <= S2)%nat ->
     erlangB_closed_form A S2 <= erlangB_closed_form A S1).
Proof.
  split.
  - intros S A1 A2 H1 H12.
    rewrite <- !recurrence_closed_form by lra.
    apply recurrence_monotone_load; assumption.
  - intros A S1 S2 HA H.
    rewrite <- !recurrence_closed_form by exact HA.
    apply recurrence_monotone_servers; assumption.
Qed.

End ExactErlangB.

(** Reference values: the evaluator agrees with the closed form where
    nothing overflows. *)
Example erlangB_1_1 : erlangBFormula (of_Z 1) 1 = one_half.
Proof. reflexivity. Qed.

Example erlangB_2_2 :
  erlangBFormula (of_Z 2) 2 = S754_finite false 7205759403792794 (-54).
Proof. vm_compute. reflexivity. Qed.

Example erlangB_no_server : erlangBFormula (of_Z 7) 0 = of_Z 1.
Proof. vm_compute. reflexivity. Qed.

(** Both the power and the factorial overflow at A = 100, S = 200, and
    Infinity / Infinity is NaN. *)
Lemma erlangB_100_200 :
  Math_pow (of_Z 100) 200 = Infinity /\
  factorial 200 = Infinity /\
  numerator (of_Z 100) 200 = NaN /\
  erlangBFormula (of_Z 100) 200 = NaN.
Proof. vm_compute. repeat split. Qed.

(** C2: the evaluator is meant to return the Erlang-B probability
    B(A, S) of the closed form.  At A = 100, S = 200 the closed form is a
    probability, strictly positive and at most 1, but the evaluator returns
    NaN, which approximates no number. *)
Theorem erlangB_100_200_misses_closed_form :
  erlangBFormula (of_Z 100) 200 = NaN /\
  (0 < erlangB_closed_form 100 200)%Q /\
  (erlangB_closed_form 100 200 <= 1)%Q.
Proof.
  split; [apply erlangB_100_200|].
  apply closed_form_is_probability. reflexivity.
Qed.

(** C3: at A = 100, S = 200 the result of the evaluator is NaN: it is
    not finite and it is not in [0, 1], because [Math.pow(100, 200)] and
    [factorial(200)] are both Infinity. *)
Theorem erlangB_100_200_not_finite :
  Math_pow (of_Z 100) 200 = Infinity /\
  factorial 200 = Infinity /\
  isNaN (erlangBFormula (of_Z 100) 200) = true /\
  isFinite (erlangBFormula (of_Z 100) 200) = false /\
  in_unit_interval (erlangBFormula (of_Z 100) 200) = false.
Proof.
  destruct erlangB_100_200 as (Hp & Hf & _ & ->).
  repeat split; assumption.
Qed.

(** C7: at S = 200 the evaluator is not monotonic.  With A1 = 1 <= A2 = 100
    the comparison [erlangBFormula(A1, 200) <= erlangBFormula(A2, 200)] is
    false, and with S1 = 1 <= S2 = 200 the comparison
    [erlangBFormula(100, S1) >= erlangBFormula(100, S2)] is false, since
    [erlangBFormula(100, 200)] is NaN. *)
Theorem erlangB_not_monotonic_at_overflow :
  (of_Z 1 <=? of_Z 100)%num = true /\
  erlangBFormula (of_Z 1) 200 = pos_zero /\
  (erlangBFormula (of_Z 1) 200 <=? erlangBFormula (of_Z 100) 200)%num = false /\
  isFinite (erlangBFormula (of_Z 100) 1) = true /\
  (erlangBFormula (of_Z 100) 200 <=? erlangBFormula (of_Z 100) 1)%num = false.
Proof.
  destruct erlangB_100_200 as (_ & _ & _ & ->).
  assert (H : erlangBFormula (of_Z 1) 200 = pos_zero) by (vm_compute; reflexivity).
  rewrite H. repeat split.
Qed.

(** C5 (counterexample): with no load and no server the evaluator returns
    1, not 0. *)
Lemma erlangB_0_0_is_one :
  erlangBFormula (of_Z 0) 0 = of_Z 1 /\ erlangBFormula (of_Z 0) 0 <> of_Z 0.
Proof. split; vm_compute; [reflexivity | discriminate]. Qed.

(** C5 (amended): at zero load the evaluator returns 0 for every server
    count S >= 1, and 1 for S = 0. *)
Theorem erlangB_zero_load (S : Z) :
  0 <= S ->
  erlangBFormula (of_Z 0) S = if S =? 0 then of_Z 1 else of_Z 0.
Proof.
  intros HS. unfold erlangBFormula.
  rewrite denominator_zero_load by exact HS.
  destruct (Z.eqb_spec S 0) as [-> | Hne]; [reflexivity|].
  unfold numerator. rewrite term_zero_load by lia. reflexivity.
Qed.

(** C8 (counterexample): a negative load is not rejected;
    [erlangBFormula(-2, 1)] returns the number 2. *)
Lemma erlangB_negative_load_returns_number :
  (of_Z (-2) <? of_Z 0)%num = true /\
  erlangBFormula (of_Z (-2)) 1 = of_Z 2 /\
  in_unit_interval (erlangBFormula (of_Z (-2)) 1) = false.
Proof. vm_compute. repeat split. Qed.

(** C8 (amended): the evaluator validates nothing.  A negative server count
    leaves the sum empty, so that the function returns
    [Math.pow(A, S) / 1 / 0], an infinite value or NaN; a negative load goes
    through the same quotient as a valid one and comes back as a number, for
    instance -Infinity at (-1, 1) and 0.2, a value of [0, 1], at
    (-0.5, 2). *)
Theorem erlangB_unvalidated :
  (forall (A : number) (S : Z),
     S < 0 ->
     denominator A S = pos_zero /\
     erlangBFormula A S = (Math_pow A S / of_Z 1 / pos_zero)%num /\
     isFinite (erlangBFormula A S) = false) /\
  erlangBFormula (of_Z (-1)) 1 = S754_infinity true /\
  erlangBFormula (- one_half)%num 2 = S754_finite false 7205759403792794 (-55).
Proof.
  split; [|split; vm_compute; reflexivity].
  intros A S HS.
  assert (Hd : denominator A S = pos_zero).
  { unfold denominator. rewrite loop_indices_neg by exact HS. reflexivity. }
  assert (Hf : factorial S = of_Z 1).
  { rewrite factorial_eq. assert (H : (S <=? 1) = true) by (apply Z.leb_le; lia).
    rewrite H. reflexivity. }
  split; [exact Hd|].
  unfold erlangBFormula, numerator. rewrite Hd, Hf.
  split; [reflexivity | apply fdiv_by_zero_not_finite].
Qed.

(** * Concrete runs of the simulator *)

(** C1: one server, rates 1, horizon 2, and a random source returning
    0.5, 0.5, 0.125, 0.5.  The first arrival comes at ln 2 and is admitted,
    its service lasts ln 2, and the second arrival comes at 4 ln 2, strictly
    after the completion at 2 ln 2.  The specification admits both arrivals;
    the run blocks the second one, because the decrement of [serversInUse]
    is still waiting in the timer queue, and returns 1/2. *)
Theorem second_arrival_blocked_after_completion :
  let run := state_after log_table draws_late_second (of_Z 1) (of_Z 1) 1 in
  let serviceTime := (- log_table (draws_late_second 1) / of_Z 1)%num in
  served (run 1%nat) = 1 /\ blocked (run 1%nat) = 0 /\
  (currentTime (run 1%nat) + serviceTime <? currentTime (run 2%nat))%num = true /\
  served (run 2%nat) = 1 /\ blocked (run 2%nat) = 1 /\
  length (timers (run 2%nat)) = 1%nat /\
  while_loop log_table draws_late_second (of_Z 1) (of_Z 1) 1 (of_Z 2) 2
    initial_state = Some (run 2%nat) /\
  simulateBlockingProbability log_table draws_late_second (of_Z 1) (of_Z 1) 1
    (of_Z 2) 2 = Some one_half.
Proof. vm_compute. repeat split. Qed.

(** C4 (counterexample): with a horizon of 0 the run ends with
    [served + blocked = 0] and returns NaN. *)
Lemma zero_horizon_run_is_NaN :
  while_loop log_table draws_half (of_Z 1) (of_Z 1) 1 (of_Z 0) 0 initial_state
  = Some initial_state /\
  blocked initial_state + served initial_state = 0 /\
  simulateBlockingProbability log_table draws_half (of_Z 1) (of_Z 1) 1 (of_Z 0) 0
  = Some NaN.
Proof. vm_compute. repeat split. Qed.

(** C6 (counterexample): with no server the first arrival is blocked, and
    the body has called [Math.random] twice, not once: the second call is
    the service-time draw. *)
Lemma blocked_arrival_consumes_two_draws :
  let st := loop_body log_table draws_half (of_Z 1) (of_Z 1) 0 initial_state in
  blocked st = 1 /\ served st = 0 /\
  random_calls st = 2%nat /\ random_calls st <> 1%nat.
Proof. vm_compute. repeat split. discriminate. Qed.

(** C9 (counterexample): with [servers = -1], a value [parseInt] can
    deliver, [serversInUse] is 0 from the start and stays 0 while every
    arrival is blocked: [0 <= serversInUse <= servers] does not hold, neither
    before the first iteration nor after it. *)
Lemma negative_server_count_breaks_upper_bound :
  let after := state_after log_table draws_half (of_Z 1) (of_Z 1) (-1) in
  serversInUse (after 0%nat) = 0 /\
  serversInUse (after 1%nat) = 0 /\ blocked (after 1%nat) = 1 /\
  ~ (0 <= serversInUse (after 0%nat) <= -1) /\
  ~ (0 <= serversInUse (after 1%nat) <= -1).
Proof.
  vm_compute. repeat split; intros [_ H]; apply H; reflexivity.
Qed.

(** One server and three arrivals: the second and the third are blocked. *)
Lemma serversInUse_never_released_witness :
  let after := state_after log_table draws_half (of_Z 1) (of_Z 1) 1 in
  1 <= serversInUse (after 1%nat) /\ 0 <= 1 /\
  blocked (after 3%nat) = blocked (after 2%nat) + 1 /\
  served (after 3%nat) = served (after 2%nat) /\
  serversInUse (after 1%nat) <= 1.
Proof.
  intros after.
  assert (H1 : 1 <= serversInUse (after 1%nat)) by (vm_compute; discriminate).
  assert (H2 : 0 <= 1) by lia.
  destruct (serversInUse_never_released log_table draws_half (of_Z 1) (of_Z 1) 1 1)
    as (_ & _ & Hfull & _ & Hle & _).
  destruct (Hfull H1 2%nat) as (Hb & Hs & _); [lia|].
  split; [exact H1|]. split; [exact H2|]. split; [exact Hb|]. split; [exact Hs|].
  exact (Hle H2).
Defined.

(** The first arrival, blocked with no server and admitted with one. *)
Lemma every_arrival_draws_service_time_witness :
  0 <= serversInUse initial_state /\
  blocked (loop_body log_table draws_half (of_Z 1) (of_Z 1) 0 initial_state) = 1 /\
  serversInUse initial_state < 1 /\
  served (loop_body log_table draws_half (of_Z 1) (of_Z 1) 1 initial_state) = 1.
Proof.
  assert (H0 : 0 <= serversInUse initial_state) by (cbn; lia).
  assert (H1 : serversInUse initial_state < 1) by (cbn; lia).
  destruct (every_arrival_draws_service_time log_table draws_half (of_Z 1) (of_Z 1) 0
              initial_state) as (_ & Hrej & _).
  destruct (every_arrival_draws_service_time log_table draws_half (of_Z 1) (of_Z 1) 1
              initial_state) as (_ & _ & Hadm).
  destruct (Hrej H0) as (Hb & _). destruct (Hadm H1) as (_ & Hs & _).
  split; [exact H0|]. split; [exact Hb|]. split; [exact H1|]. exact Hs.
Defined.

(** A negative horizon. *)
Lemma no_arrival_run_returns_NaN_witness :
  (of_Z 0 <? of_Z (-1))%num = false /\
  while_loop log_table draws_half (of_Z 1) (of_Z 1) 1 (of_Z (-1)) 3 initial_state
  = Some initial_state /\
  blocked initial_state + served initial_state = 0 /\
  simulateBlockingProbability log_table draws_half (of_Z 1) (of_Z 1) 1 (of_Z (-1)) 3
  = Some NaN.
Proof.
  assert (H0 : (of_Z 0 <? of_Z (-1))%num = false) by reflexivity.
  assert (H2 : blocked initial_state + served initial_state = 0) by reflexivity.
  destruct (no_arrival_run_returns_NaN log_table draws_half (of_Z 1) (of_Z 1) 1
              (of_Z (-1)) 3) as (Hnonpos & Hzero).
  destruct (Hnonpos H0) as (H1 & _).
  destruct (Hzero initial_state H1 H2) as (_ & _ & Hres).
  split; [exact H0|]. split; [exact H1|]. split; [exact H2 | exact Hres].
Defined.

(** The run of [second_arrival_blocked_after_completion], with fuel to
    spare: it returns after two arrivals. *)
Lemma positive_horizon_counts_an_arrival_witness :
  let after := state_after log_table draws_late_second (of_Z 1) (of_Z 1) 1 in
  (of_Z 0 <? of_Z 2)%num = true /\
  (2 <= 5)%nat /\
  loop_condition (of_Z 2) (after 2%nat) = false /\
  Z.of_nat 5 < 2 ^ 53 /\
  exists st : sim_state,
    while_loop log_table draws_late_second (of_Z 1) (of_Z 1) 1 (of_Z 2) 5
      initial_state = Some st /\
    1 <= blocked st + served st /\
    in_unit_interval (final_ratio st) = true.
Proof.
  intros after.
  assert (H1 : (of_Z 0 <? of_Z 2)%num = true) by reflexivity.
  assert (H2 : (2 <= 5)%nat) by lia.
  assert (H3 : loop_condition (of_Z 2) (after 2%nat) = false) by reflexivity.
  assert (H4 : Z.of_nat 5 < 2 ^ 53) by reflexivity.
  destruct (positive_horizon_counts_an_arrival log_table draws_late_second
              (of_Z 1) (of_Z 1) 1 (of_Z 2) 5 2 H1 H2 H3 H4)
    as (n & st & Hrun & Hn & _ & _ & _ & Hsum & _ & _ & _ & _ & Hunit).
  split; [exact H1|]. split; [exact H2|]. split; [exact H3|]. split; [exact H4|].
  exists st. split; [exact Hrun|]. split; [lia | exact Hunit].
Defined.

(** Three servers and no load. *)
Lemma erlangB_zero_load_witness :
  0 <= 3 /\ erlangBFormula (of_Z 0) 3 = of_Z 0.
Proof.
  assert (H : 0 <= 3) by lia.
  split; [exact H | exact (erlangB_zero_load 3 H)].
Defined.

(** A server count of -1. *)
Lemma erlangB_unvalidated_witness :
  -1 < 0 /\ isFinite (erlangBFormula (of_Z 2) (-1)) = false.
Proof.
  assert (H : -1 < 0) by lia.
  destruct erlangB_unvalidated as (Hneg & _).
  destruct (Hneg (of_Z 2) (-1) H) as (_ & _ & Hfin).
  split; [exact H | exact Hfin].
Defined.

(** * Further properties of the analytical evaluator *)

Lemma fmul_at_least_one_infinity (x : number) :
  at_least_one x = true -> (x * Infinity)%num = Infinity.
Proof. destruct x as [s|[]| |[] m e]; try discriminate; reflexivity. Qed.

Lemma factorial_overflow_from (d : nat) : factorial (171 + Z.of_nat d) = Infinity.
Proof.
  induction d as [|d IH].
  - vm_compute. reflexivity.
  - rewrite factorial_eq.
    assert (H : (171 + Z.of_nat (S d) <=? 1) = false) by (apply Z.leb_gt; lia).
    rewrite H.
    replace (171 + Z.of_nat (S d) - 1) with (171 + Z.of_nat d) by lia.
    rewrite IH. apply fmul_at_least_one_infinity, of_Z_at_least_one. lia.
Qed.

Lemma factorial_finite_table :
  forallb (fun k => isFinite (factorial (Z.of_nat k))) (seq 0 171) = true.
Proof. vm_compute. reflexivity. Qed.

(** X1: [factorial(n)] is finite exactly for [n <= 170]; from 171 on it is
    Infinity, and for [n <= 1], negative [n] included, it is 1. *)
Theorem factorial_finite_iff (n : Z) :
  (isFinite (factorial n) = true <-> n <= 170) /\
  (170 < n -> factorial n = Infinity) /\
  (n <= 1 -> factorial n = of_Z 1).
Proof.
  assert (Hbig : 170 < n -> factorial n = Infinity).
  { intros H. replace n with (171 + Z.of_nat (Z.to_nat (n - 171))) by lia.
    apply factorial_overflow_from. }
  split; [|split; [exact Hbig|]].
  - split.
    + intros Hfin. destruct (Z.le_gt_cases n 170) as [|Hgt]; [assumption|].
      rewrite (Hbig Hgt) in Hfin. discriminate.
    + intros Hle. destruct (Z.le_gt_cases n 0) as [Hneg | Hpos].
      * rewrite factorial_eq.
        assert (H : (n <=? 1) = true) by (apply Z.leb_le; lia).
        rewrite H. reflexivity.
      * pose proof factorial_finite_table as T.
        rewrite forallb_forall in T.
        specialize (T (Z.to_nat n)). rewrite Z2Nat.id in T by lia.
        apply T. apply in_seq. lia.
  - intros H. rewrite factorial_eq.
    assert (E : (n <=? 1) = true) by (apply Z.leb_le; lia).
    rewrite E. reflexivity.
Qed.

(** X2: for every integer [n], [factorial(n)] is a number at least 1 (or
    Infinity): it is never NaN and never zero, so dividing by it never
    produces a division by zero. *)
Theorem factorial_never_below_one (n : Z) :
  isNaN (factorial n) = false /\ isZero (factorial n) = false /\
  (of_Z 1 <=? factorial n)%num = true.
Proof.
  pose proof (factorial_at_least_one n) as H.
  destruct (factorial n) as [s|[]| |[] m e]; try discriminate H.
  - repeat split.
  - cbn [at_least_one] in H. apply andb_prop in H. destruct H as [Hd He].
    apply Z.eqb_eq in Hd. apply Z.leb_le in He. change (1 - prec) with (-52) in He.
    split; [reflexivity|]. split; [reflexivity|].
    change (of_Z 1) with (S754_finite false 4503599627370496 (-52)).
    unfold fleb, SFleb, SFcompare.
    destruct (Z.compare_spec (-52) e) as [<- | Hlt | Hgt]; [|reflexivity|lia].
    pose proof (digits2_pos_bounds m) as [Blo _]. rewrite Hd in Blo.
    change (2 ^ (prec - 1)) with (Zpos 4503599627370496) in Blo.
    change (Pos.compare_cont Eq 4503599627370496 m)
      with (Zpos 4503599627370496 ?= Zpos m).
    destruct (Z.compare_spec (Zpos 4503599627370496) (Zpos m)) as [E | L | G];
      try reflexivity.
    exfalso. apply (Z.lt_irrefl (Zpos m)). eapply Z.lt_le_trans; eassumption.
Qed.

(** X3: with no server the evaluator returns exactly 1 whatever the load
    is, NaN, negative and infinite loads included. *)
Theorem erlangB_no_server_any_load (A : number) : erlangBFormula A 0 = of_Z 1.
Proof. vm_compute. reflexivity. Qed.

Lemma loop_indices_snoc (S : Z) :
  0 <= S -> loop_indices S = loop_indices (S - 1) ++ [S].
Proof.
  intros HS. unfold loop_indices.
  replace (Z.to_nat (S + 1)) with (Datatypes.S (Z.to_nat S)) by lia.
  replace (Z.to_nat (S - 1 + 1)) with (Z.to_nat S) by lia.
  rewrite seq_S, map_app. cbn [map Nat.add]. rewrite Z2Nat.id by lia. reflexivity.
Qed.

(** X4: for [S >= 0] the last term the loop adds to [denominator] is the
    numerator, so the result is [t / (d + t)] with [t] the numerator and
    [d] the sum of the terms before it. *)
Theorem denominator_last_term (A : number) (S : Z) :
  0 <= S ->
  denominator A S = (denominator A (S - 1) + numerator A S)%num /\
  erlangBFormula A S
  = (numerator A S / (denominator A (S - 1) + numerator A S))%num.
Proof.
  intros HS.
  assert (E : denominator A S = (denominator A (S - 1) + numerator A S)%num).
  { unfold denominator. rewrite (loop_indices_snoc S HS), fold_left_app. reflexivity. }
  split; [exact E|]. unfold erlangBFormula. rewrite E. reflexivity.
Qed.

Lemma fdiv_infinity_zero_or_NaN (x : number) :
  isZero (x / Infinity)%num || isNaN (x / Infinity)%num = true.
Proof. destruct x as [s|s| |s m e]; reflexivity. Qed.

Lemma fdiv_zero_or_NaN (x y : number) :
  isZero x || isNaN x = true -> isZero (x / y)%num || isNaN (x / y)%num = true.
Proof.
  destruct x as [s|s| |s m e]; try discriminate; intros _;
    destruct y as [t|t| |t m' e']; reflexivity.
Qed.

Lemma erlangB_zero_or_NaN_from_171 (A : number) (S : Z) :
  171 <= S ->
  numerator A S = (Math_pow A S / Infinity)%num /\
  isZero (erlangBFormula A S) || isNaN (erlangBFormula A S) = true.
Proof.
  intros HS.
  assert (Hf : factorial S = Infinity).
  { replace S with (171 + Z.of_nat (Z.to_nat (S - 171))) by lia.
    apply factorial_overflow_from. }
  unfold erlangBFormula, numerator. rewrite Hf. split; [reflexivity|].
  apply fdiv_zero_or_NaN, fdiv_infinity_zero_or_NaN.
Qed.

(** X5: from 171 servers on, whatever the load, the numerator is
    [Math.pow(A, S) / Infinity] and the evaluator returns a zero or NaN:
    never a positive probability. *)
Theorem erlangB_degenerate_from_171 (A : number) (S : Z) :
  171 <= S ->
  numerator A S = (Math_pow A S / Infinity)%num /\
  isZero (erlangBFormula A S) || isNaN (erlangBFormula A S) = true /\
  (of_Z 0 <? erlangBFormula A S)%num = false.
Proof.
  intros HS. destruct (erlangB_zero_or_NaN_from_171 A S HS) as [Hn Hz].
  split; [exact Hn|]. split; [exact Hz|].
  destruct (erlangBFormula A S) as [s|s| |s m e]; try discriminate Hz; reflexivity.
Qed.

Lemma factorial_finite_iff_witness :
  170 < 200 /\ factorial 200 = Infinity /\
  5 <= 170 /\ isFinite (factorial 5) = true /\
  -3 <= 1 /\ factorial (-3) = of_Z 1.
Proof.
  assert (H1 : 170 < 200) by lia.
  assert (H2 : 5 <= 170) by lia.
  assert (H3 : -3 <= 1) by lia.
  destruct (factorial_finite_iff 200) as (_ & Hbig & _).
  destruct (factorial_finite_iff 5) as ((_ & Hfin) & _).
  destruct (factorial_finite_iff (-3)) as (_ & _ & Hone).
  split; [exact H1|]. split; [exact (Hbig H1)|]. split; [exact H2|].
  split; [exact (Hfin H2)|]. split; [exact H3 | exact (Hone H3)].
Defined.

Lemma denominator_last_term_witness :
  0 <= 3 /\
  denominator (of_Z 2) 3 = (denominator (of_Z 2) 2 + numerator (of_Z 2) 3)%num.
Proof.
  assert (H : 0 <= 3) by lia.
  destruct (denominator_last_term (of_Z 2) 3 H) as [Hd _].
  split; [exact H | exact Hd].
Defined.

Lemma erlangB_degenerate_from_171_witness :
  171 <= 171 /\ (of_Z 0 <? erlangBFormula (of_Z 2) 171)%num = false.
Proof.
  assert (H : 171 <= 171) by lia.
  destruct (erlangB_degenerate_from_171 (of_Z 2) 171 H) as (_ & _ & Hpos).
  split; [exact H | exact Hpos].
Defined.

(** * Further properties of the simulator *)

Lemma fdiv_of_Z_self (n : Z) :
  1 <= n < 2 ^ prec -> (of_Z n / of_Z n)%num = of_Z 1.
Proof.
  intros Hn. destruct n as [|p|p]; try lia.
  destruct (of_Z_small p) as (m & -> & Dm & _); [lia|].
  apply fdiv_self_normal, Dm.
Qed.

Lemma fdiv_zero_of_Z (n : Z) :
  1 <= n < 2 ^ prec -> (of_Z 0 / of_Z n)%num = pos_zero.
Proof.
  intros Hn. destruct n as [|p|p]; try lia.
  destruct (of_Z_small p) as (m & -> & _); [lia|]. reflexivity.
Qed.

Section RunExtras.

Variable Math_log : number -> number.
Variable Math_random : nat -> number.
Variables lambda mu : number.
Variable servers : Z.
Variable timeLimit : number.

Let body := loop_body Math_log Math_random lambda mu servers.
Let cond := loop_condition timeLimit.
Let loop := while_loop Math_log Math_random lambda mu servers timeLimit.
Let after := state_after Math_log Math_random lambda mu servers.

(** The call returns when the clock reaches the horizon within the fuel,
    in the state after the first iteration count at which it does. *)
Lemma loop_returns (fuel k : nat) :
  (k <= fuel)%nat -> cond (after k) = false ->
  exists n : nat,
    (n <= k)%nat /\ loop fuel initial_state = Some (after n) /\
    cond (after n) = false /\
    forall i, (i < n)%nat -> cond (after i) = true.
Proof.
  intros Hk Hreach.
  destruct (while_loop_enough_fuel Math_log Math_random lambda mu servers timeLimit
              k initial_state fuel Hreach Hk) as (st & Hrun).
  destruct (loop_exit_state Math_log Math_random lambda mu servers timeLimit
              fuel st Hrun) as (n & Hn & Hst & _ & Hc & Hall).
  exists n. split.
  - destruct (Nat.le_gt_cases n k) as [|Hgt]; [assumption|].
    unfold cond, after in Hreach. rewrite (Hall k Hgt) in Hreach. discriminate.
  - split; [unfold loop; rewrite Hrun, Hst; reflexivity|].
    split; [exact Hc | exact Hall].
Qed.

(** X6: a run admits the first [servers] of its arrivals and blocks all
    the others, whatever the rates and the random source.  When the clock
    reaches the horizon within the fuel, the call returns the state after
    [n] iterations, [n] being the first count at which the loop condition
    fails; after any [i <= n] of them [served = min(i, max(0, servers))],
    [blocked = i - served] and [Math.random] has been called [2 i] times;
    arrival number [i + 1] is admitted when [i < servers] and blocked
    otherwise. *)
Theorem simulator_admits_first_servers (fuel k : nat) :
  (k <= fuel)%nat -> cond (after k) = false ->
  exists n : nat,
    (n <= k)%nat /\
    loop fuel initial_state = Some (after n) /\
    cond (after n) = false /\
    (forall i, (i < n)%nat -> cond (after i) = true) /\
    (forall i, (i <= n)%nat ->
       served (after i) = Z.min (Z.of_nat i) (Z.max 0 servers) /\
       blocked (after i) = Z.of_nat i - served (after i) /\
       random_calls (after i) = (2 * i)%nat) /\
    (forall i, (i < n)%nat ->
       (Z.of_nat i < servers ->
        served (after (S i)) = served (after i) + 1 /\
        blocked (after (S i)) = blocked (after i)) /\
       (servers <= Z.of_nat i ->
        served (after (S i)) = served (after i) /\
        blocked (after (S i)) = blocked (after i) + 1)).
Proof.
  intros Hk Hreach.
  destruct (loop_returns fuel k Hk Hreach) as (n & Hn & Hrun & Hc & Hall).
  exists n. split; [exact Hn|]. split; [exact Hrun|]. split; [exact Hc|].
  split; [exact Hall|]. split.
  - intros i _.
    destruct (after_counters Math_log Math_random lambda mu servers i)
      as (Hv & Hb & _ & _ & Hr).
    split; [exact Hv|]. split; [exact Hb | exact Hr].
  - intros i _.
    destruct (after_counters Math_log Math_random lambda mu servers i)
      as (Hv & Hb & _).
    destruct (after_counters Math_log Math_random lambda mu servers (S i))
      as (Hv' & Hb' & _).
    fold after in Hv, Hb, Hv', Hb'.
    split; intros Hs; split; lia.
Qed.

(** X7: with a positive horizon, when the clock reaches the horizon within
    the fuel, the call returns after [n >= 1] iterations, [n] being the
    first count at which the loop condition fails and the number of
    arrivals counted, and its value is
    [(n - min(n, max(0, servers))) / n]: exactly 1 when [servers <= 0], and
    exactly 0 when the run generates no more arrivals than there are
    servers. *)
Theorem simulator_result_extremes (fuel k : nat) :
  (of_Z 0 <? timeLimit)%num = true ->
  (k <= fuel)%nat -> cond (after k) = false ->
  Z.of_nat fuel < 2 ^ 53 ->
  exists n : nat,
    (1 <= n <= k)%nat /\
    loop fuel initial_state = Some (after n) /\
    cond (after n) = false /\
    (forall i, (i < n)%nat -> cond (after i) = true) /\
    blocked (after n) + served (after n) = Z.of_nat n /\
    simulateBlockingProbability Math_log Math_random lambda mu servers timeLimit fuel
    = Some (of_Z (Z.of_nat n - Z.min (Z.of_nat n) (Z.max 0 servers)) / of_Z (Z.of_nat n))%num /\
    (servers <= 0 ->
     simulateBlockingProbability Math_log Math_random lambda mu servers timeLimit fuel
     = Some (of_Z 1)) /\
    (Z.of_nat n <= servers ->
     simulateBlockingProbability Math_log Math_random lambda mu servers timeLimit fuel
     = Some pos_zero).
Proof.
  intros Hpos Hk Hreach Hbound.
  destruct (loop_returns fuel k Hk Hreach) as (n & Hn & Hrun & Hc & Hall).
  destruct (after_counters Math_log Math_random lambda mu servers n)
    as (Hv & Hb & _).
  assert (Hn1 : (1 <= n)%nat).
  { destruct n; [|lia]. unfold cond, loop_condition in Hc.
    change (currentTime (after 0)) with (of_Z 0) in Hc. congruence. }
  assert (Hres : simulateBlockingProbability Math_log Math_random lambda mu servers
                   timeLimit fuel
                 = Some (of_Z (Z.of_nat n - Z.min (Z.of_nat n) (Z.max 0 servers))
                         / of_Z (Z.of_nat n))%num).
  { unfold simulateBlockingProbability. unfold loop, after in Hrun. rewrite Hrun.
    cbn [option_map]. unfold final_ratio.
    rewrite Hb, Hv. do 2 f_equal. f_equal. lia. }
  exists n. split; [lia|]. split; [exact Hrun|]. split; [exact Hc|].
  split; [exact Hall|]. split; [fold after in Hv, Hb; lia|].
  split; [exact Hres|]. split.
  - intros Hs. rewrite Hres.
    replace (Z.of_nat n - Z.min (Z.of_nat n) (Z.max 0 servers)) with (Z.of_nat n) by lia.
    rewrite fdiv_of_Z_self by (unfold prec; lia). reflexivity.
  - intros Hs. rewrite Hres.
    replace (Z.of_nat n - Z.min (Z.of_nat n) (Z.max 0 servers)) with 0 by lia.
    rewrite fdiv_zero_of_Z by (unfold prec; lia). reflexivity.
Qed.

(** X8: when the call returns, it has scheduled exactly one timer per
    admitted arrival and [serversInUse] equals [served]; once the event loop
    has fired them all, [serversInUse] is back to 0 (it never goes
    negative). *)
Theorem timers_release_every_server (fuel : nat) (st : sim_state) :
  loop fuel initial_state = Some st ->
  length (timers st) = Z.to_nat (served st) /\
  serversInUse st = served st /\
  serversInUse (fire_timers st) = 0 /\
  timers (fire_timers st) = [].
Proof.
  intros Hrun.
  destruct (loop_exit_state Math_log Math_random lambda mu servers timeLimit
              fuel st Hrun) as (n & _ & -> & _).
  destruct (after_counters Math_log Math_random lambda mu servers n)
    as (_ & _ & Hu & Ht & _).
  cbn [fire_timers serversInUse timers].
  repeat split; lia.
Qed.

End RunExtras.

Section ServiceRate.

Variable Math_log : number -> number.
Variables rnd rnd' : nat -> number.
Variables lambda mu mu' : number.
Variable servers : Z.
Variable timeLimit : number.

Hypothesis gap_draws_agree : forall j : nat, rnd (2 * j)%nat = rnd' (2 * j)%nat.

Lemma loop_body_same_counters (st st' : sim_state) (j : nat) :
  counters_and_clock st = counters_and_clock st' ->
  random_calls st = (2 * j)%nat ->
  counters_and_clock (loop_body Math_log rnd lambda mu servers st)
  = counters_and_clock (loop_body Math_log rnd' lambda mu' servers st') /\
  random_calls (loop_body Math_log rnd lambda mu servers st) = (2 * S j)%nat.
Proof.
  intros Hc Hr. unfold counters_and_clock in Hc.
  injection Hc as Hb Hv Ht Hu Hn.
  unfold loop_body, counters_and_clock.
  rewrite <- Hu, <- Hn, <- Hb, <- Hv, <- Ht, Hr, gap_draws_agree.
  destruct (serversInUse st <? servers); cbn; split; try reflexivity; lia.
Qed.

Lemma while_loop_same_counters (fuel : nat) : forall (st st' : sim_state) (j : nat),
  counters_and_clock st = counters_and_clock st' ->
  random_calls st = (2 * j)%nat ->
  option_map counters_and_clock
    (while_loop Math_log rnd lambda mu servers timeLimit fuel st)
  = option_map counters_and_clock
      (while_loop Math_log rnd' lambda mu' servers timeLimit fuel st').
Proof.
  induction fuel as [|fuel IH]; intros st st' j Hc Hr; cbn [while_loop];
    assert (Hcond : loop_condition timeLimit st = loop_condition timeLimit st')
      by (unfold loop_condition; unfold counters_and_clock in Hc; congruence);
    rewrite <- Hcond; destruct (loop_condition timeLimit st).
  - reflexivity.
  - cbn [option_map]. f_equal. exact Hc.
  - destruct (loop_body_same_counters st st' j Hc Hr) as [Hc' Hr'].
    exact (IH _ _ (S j) Hc' Hr').
  - cbn [option_map]. f_equal. exact Hc.
Qed.

(** X9: the returned value does not depend on the service rate [mu] nor on
    the service-time draws (the odd calls of [Math.random]): two runs that
    agree on the gap draws return the same value, or both fail to return. *)
Theorem result_ignores_service_rate (fuel : nat) :
  simulateBlockingProbability Math_log rnd lambda mu servers timeLimit fuel
  = simulateBlockingProbability Math_log rnd' lambda mu' servers timeLimit fuel.
Proof.
  unfold simulateBlockingProbability.
  pose proof (while_loop_same_counters fuel initial_state initial_state 0
                eq_refl eq_refl) as H.
  destruct (while_loop Math_log rnd lambda mu servers timeLimit fuel initial_state)
    as [st|];
  destruct (while_loop Math_log rnd' lambda mu' servers timeLimit fuel initial_state)
    as [st'|]; cbn [option_map] in *; try discriminate; [|reflexivity].
  injection H as Hb Hv _ _ _. unfold final_ratio. rewrite Hb, Hv. reflexivity.
Qed.

End ServiceRate.

Lemma result_ignores_service_rate_witness :
  (forall j : nat, draws_half (2 * j)%nat = draws_half_eighth (2 * j)%nat) /\
  simulateBlockingProbability log_table draws_half (of_Z 1) (of_Z 1) 1 (of_Z 2) 9
  = simulateBlockingProbability log_table draws_half_eighth (of_Z 1) (of_Z 7) 1 (of_Z 2) 9.
Proof.
  assert (H : forall j : nat, draws_half (2 * j)%nat = draws_half_eighth (2 * j)%nat).
  { intros j. unfold draws_half, draws_half_eighth.
    rewrite Nat.even_mul. reflexivity. }
  split; [exact H|].
  apply (result_ignores_service_rate log_table draws_half draws_half_eighth
           (of_Z 1) (of_Z 1) (of_Z 7) 1 (of_Z 2) H 9).
Defined.

Import Chart.

(** * Properties of the plot *)

Section PlotFacts.

Variable Math_log : number -> number.
Variable Math_random : nat -> number.
Variable fuel : nat.

Lemma returned_ratio_in_unit_interval (rnd : nat -> number) (lambda mu : number)
  (servers : Z) (timeLimit : number) (st : sim_state) :
  (of_Z 0 <? timeLimit)%num = true ->
  Z.of_nat fuel < 2 ^ 53 ->
  while_loop Math_log rnd lambda mu servers timeLimit fuel initial_state = Some st ->
  1 <= blocked st + served st < 2 ^ 53 /\
  blocked st = blocked st + served st - Z.min (blocked st + served st) (Z.max 0 servers) /\
  in_unit_interval (final_ratio st) = true.
Proof.
  intros Hpos Hbound Hrun.
  destruct (loop_exit_state Math_log rnd lambda mu servers timeLimit fuel st Hrun)
    as (n & Hn & Hst & Hsum & Hc & _).
  destruct (after_counters Math_log rnd lambda mu servers n) as (Hv & Hb & _).
  rewrite <- Hst in Hv, Hb.
  assert (Hn1 : (1 <= n)%nat).
  { destruct n; [|lia]. unfold loop_condition in Hc.
    change (currentTime (state_after Math_log rnd lambda mu servers 0))
      with (of_Z 0) in Hc. congruence. }
  split; [lia|]. split; [lia|].
  unfold final_ratio. apply fdiv_of_Z_unit; unfold prec; lia.
Qed.

Lemma simulate_call_unit (used : nat) (lambda mu : number) (servers : Z)
  (v : number) (used' : nat) :
  Z.of_nat fuel < 2 ^ 53 ->
  simulate_call Math_log Math_random fuel used lambda mu servers (of_Z 1000)
  = Some (v, used') ->
  in_unit_interval v = true /\ (servers <= 0 -> v = of_Z 1).
Proof.
  intros Hbound Hcall. unfold simulate_call in Hcall.
  destruct (while_loop Math_log (fun i => Math_random (used + i)%nat) lambda mu
              servers (of_Z 1000) fuel initial_state) as [st|] eqn:Hrun;
    [|discriminate].
  cbn [option_map] in Hcall. injection Hcall as <- <-.
  destruct (returned_ratio_in_unit_interval
              (fun i => Math_random (used + i)%nat) lambda mu servers (of_Z 1000) st
              eq_refl Hbound Hrun)
    as (Hsum & Hb & Hunit).
  split; [exact Hunit|].
  intros Hs. unfold final_ratio.
  replace (blocked st) with (blocked st + served st) at 1 by lia.
  apply fdiv_of_Z_self. unfold prec. lia.
Qed.

Lemma map_simulate_length (f : number -> nat -> option (number * nat))
  (loads : list number) : forall used vs used',
  map_simulate f loads used = Some (vs, used') -> length vs = length loads.
Proof.
  induction loads as [|A rest IH]; intros used vs used' H; cbn in H.
  - injection H as <- <-. reflexivity.
  - destruct (f A used) as [[v u]|]; [|discriminate].
    destruct (map_simulate f rest u) as [[ws u']|] eqn:E; [|discriminate].
    injection H as <- <-. cbn. f_equal. eapply IH. exact E.
Qed.

Lemma map_simulate_Forall (P : number -> Prop)
  (f : number -> nat -> option (number * nat)) (loads : list number) :
  (forall A used v used', f A used = Some (v, used') -> P v) ->
  forall used vs used',
    map_simulate f loads used = Some (vs, used') -> Forall P vs.
Proof.
  intros Hf. induction loads as [|A rest IH]; intros used vs used' H; cbn in H.
  - injection H as <- <-. constructor.
  - destruct (f A used) as [[v u]|] eqn:Ef; [|discriminate].
    destruct (map_simulate f rest u) as [[ws u']|] eqn:E; [|discriminate].
    injection H as <- <-. constructor; [eapply Hf; exact Ef | eapply IH; exact E].
Qed.

(** Both versions build their chart from twenty loads and a series of
    simulated values obtained by [map_simulate]. *)
Lemma simulateAndPlot_chart (servers : Z) (lambda mu : number) (pg pg' : page) :
  ScaledLoads.simulateAndPlot Math_log Math_random fuel servers lambda mu pg = Some pg' \/
  FixedLoads.simulateAndPlot Math_log Math_random fuel servers lambda mu pg = Some pg' ->
  exists (loads sim : list number) (f : number -> nat -> option (number * nat))
         (used : nat),
    length loads = 20%nat /\
    (forall A u v u', f A u = Some (v, u') ->
       exists rate, simulate_call Math_log Math_random fuel u rate mu servers (of_Z 1000)
                    = Some (v, u')) /\
    map_simulate f loads (random_used pg) = Some (sim, used) /\
    pg' = show_chart pg
            (line_chart loads (map (fun A => erlangBFormula A servers) loads) sim)
            used.
Proof.
  intros [H | H].
  - unfold ScaledLoads.simulateAndPlot in H.
    destruct (map_simulate _ _ _) as [[sim used]|] eqn:E; [|discriminate].
    injection H as <-.
    exists (ScaledLoads.offeredLoads lambda mu), sim,
      (fun _ u => simulate_call Math_log Math_random fuel u lambda mu servers (of_Z 1000)),
      used.
    split; [reflexivity|]. split; [|split; [exact E|reflexivity]].
    intros A u v u' Hf. exists lambda. exact Hf.
  - unfold FixedLoads.simulateAndPlot in H.
    destruct (map_simulate _ _ _) as [[sim used]|] eqn:E; [|discriminate].
    injection H as <-.
    exists FixedLoads.offeredLoads, sim,
      (fun A u => simulate_call Math_log Math_random fuel u A mu servers (of_Z 1000)),
      used.
    split; [reflexivity|]. split; [|split; [exact E|reflexivity]].
    intros A u v u' Hf. exists A. exact Hf.
Qed.

(** X10: a call of [simulateAndPlot] that returns leaves a chart with 20
    labels and 2 series, each with one point per label. *)
Theorem plot_series_aligned (servers : Z) (lambda mu : number) (pg pg' : page) :
  ScaledLoads.simulateAndPlot Math_log Math_random fuel servers lambda mu pg = Some pg' \/
  FixedLoads.simulateAndPlot Math_log Math_random fuel servers lambda mu pg = Some pg' ->
  exists c : chart,
    chartInstance pg' = Some c /\
    length (labels c) = 20%nat /\
    length (datasets c) = 2%nat /\
    Forall (fun d => length (data d) = length (labels c)) (datasets c).
Proof.
  intros H.
  destruct (simulateAndPlot_chart servers lambda mu pg pg' H)
    as (loads & sim & f & used & Hlen & _ & Hmap & ->).
  eexists. split; [reflexivity|]. cbn [line_chart labels datasets].
  split; [exact Hlen|]. split; [reflexivity|].
  repeat constructor; cbn [data].
  - apply length_map.
  - eapply map_simulate_length. exact Hmap.
Qed.

(** X11: every point of the "Simulation" series is a number of [0, 1],
    never NaN: the horizon 1000 is positive, so each run counts at least one
    arrival. *)
Theorem plot_simulated_series_in_unit_interval
  (servers : Z) (lambda mu : number) (pg pg' : page) :
  Z.of_nat fuel < 2 ^ 53 ->
  ScaledLoads.simulateAndPlot Math_log Math_random fuel servers lambda mu pg = Some pg' \/
  FixedLoads.simulateAndPlot Math_log Math_random fuel servers lambda mu pg = Some pg' ->
  exists (c : chart) (theory sim : dataset),
    chartInstance pg' = Some c /\ datasets c = [theory; sim] /\
    label sim = simulation_label /\
    Forall (fun v => in_unit_interval v = true /\ isNaN v = false) (data sim).
Proof.
  intros Hbound H.
  destruct (simulateAndPlot_chart servers lambda mu pg pg' H)
    as (loads & sim & f & used & _ & Hf & Hmap & ->).
  eexists _, _, _. split; [reflexivity|]. split; [reflexivity|].
  split; [reflexivity|]. cbn [data].
  eapply map_simulate_Forall; [|exact Hmap].
  intros A u v u' Hcall. destruct (Hf A u v u' Hcall) as (rate & Hsim).
  destruct (simulate_call_unit u rate mu servers v u' Hbound Hsim) as [Hunit _].
  split; [exact Hunit|]. destruct v; try reflexivity. discriminate Hunit.
Qed.

(** X12: with [servers = 0] both series are constantly 1, whatever the
    rates: the evaluator and the simulator agree that everything is
    blocked. *)
Theorem plot_without_server_is_constant_one
  (lambda mu : number) (pg pg' : page) :
  Z.of_nat fuel < 2 ^ 53 ->
  ScaledLoads.simulateAndPlot Math_log Math_random fuel 0 lambda mu pg = Some pg' \/
  FixedLoads.simulateAndPlot Math_log Math_random fuel 0 lambda mu pg = Some pg' ->
  exists c : chart,
    chartInstance pg' = Some c /\
    Forall (fun d => Forall (fun v => v = of_Z 1) (data d)) (datasets c).
Proof.
  intros Hbound H.
  destruct (simulateAndPlot_chart 0 lambda mu pg pg' H)
    as (loads & sim & f & used & _ & Hf & Hmap & ->).
  eexists. split; [reflexivity|]. cbn [line_chart datasets].
  repeat constructor; cbn [data].
  - apply Forall_forall. intros v Hv. apply in_map_iff in Hv.
    destruct Hv as (A & <- & _). vm_compute. reflexivity.
  - eapply map_simulate_Forall; [|exact Hmap].
    intros A u v u' Hcall. destruct (Hf A u v u' Hcall) as (rate & Hsim).
    destruct (simulate_call_unit u rate mu 0 v u' Hbound Hsim) as [_ Hone].
    apply Hone. lia.
Qed.

Lemma show_chart_alive (pg : page) (c : chart) (used : nat) :
  live_charts pg = match chartInstance pg with Some _ => 1%nat | None => 0%nat end ->
  live_charts (show_chart pg c used) = 1%nat /\
  chartInstance (show_chart pg c used) = Some c.
Proof.
  intros H. unfold show_chart. cbn. rewrite H.
  destruct (chartInstance pg); split; reflexivity.
Qed.

(** X13: after any sequence of clicks that return, exactly one chart is
    alive on the canvas, the one [chartInstance] holds: each call destroys
    the chart of the previous one before it creates its own. *)
Theorem one_chart_alive (handler : Z -> number -> number -> page -> option page)
  (inputs : list (Z * number * number)) (pg : page) :
  handler = ScaledLoads.simulateAndPlot Math_log Math_random fuel \/
  handler = FixedLoads.simulateAndPlot Math_log Math_random fuel ->
  clicks handler inputs initial_page = Some pg ->
  live_charts pg = match inputs with [] => 0%nat | _ :: _ => 1%nat end /\
  (chartInstance pg = None <-> inputs = []).
Proof.
  intros Hh Hrun.
  assert (Hstep : forall s l m p p',
            live_charts p = match chartInstance p with Some _ => 1%nat | None => 0%nat end ->
            handler s l m p = Some p' ->
            live_charts p' = 1%nat /\ chartInstance p' <> None).
  { intros s l m p p' Hp Hcall.
    assert (Hor : ScaledLoads.simulateAndPlot Math_log Math_random fuel s l m p = Some p' \/
                  FixedLoads.simulateAndPlot Math_log Math_random fuel s l m p = Some p')
      by (destruct Hh as [-> | ->]; [left | right]; exact Hcall).
    destruct (simulateAndPlot_chart s l m p p' Hor)
      as (loads & sim & f & used & _ & _ & _ & ->).
    destruct (show_chart_alive p
                (line_chart loads (map (fun A => erlangBFormula A s) loads) sim)
                used Hp) as [Hl Hc].
    rewrite Hc. split; [exact Hl | discriminate]. }
  assert (Hgen : forall l p q,
            live_charts p = 1%nat /\ chartInstance p <> None ->
            clicks handler l p = Some q ->
            live_charts q = 1%nat /\ chartInstance q <> None).
  { induction l as [|[[s la] m] l IH]; intros p q Hp Hq; cbn in Hq.
    - injection Hq as <-. exact Hp.
    - destruct (handler s la m p) as [p'|] eqn:E; [|discriminate].
      apply (IH p' q); [|exact Hq].
      apply (Hstep s la m p p'); [|exact E].
      destruct Hp as [Hl Hc]. rewrite Hl. destruct (chartInstance p); [reflexivity|congruence]. }
  destruct inputs as [|[[s la] m] rest]; cbn in Hrun.
  - injection Hrun as <-. split; [reflexivity|]. split; reflexivity.
  - destruct (handler s la m initial_page) as [p'|] eqn:E; [|discriminate].
    destruct (Hgen rest p' pg) as [Hl Hc]; [apply (Hstep s la m initial_page p'); [reflexivity|exact E] | exact Hrun |].
    split; [exact Hl|]. split; [intros Hn; contradiction | discriminate].
Qed.

(** X14: from 171 servers on, every point of the "Erlang B Formula" series
    is a zero or NaN, whatever the rates. *)
Theorem plot_theory_series_degenerate_from_171
  (servers : Z) (lambda mu : number) (pg pg' : page) :
  171 <= servers ->
  ScaledLoads.simulateAndPlot Math_log Math_random fuel servers lambda mu pg = Some pg' \/
  FixedLoads.simulateAndPlot Math_log Math_random fuel servers lambda mu pg = Some pg' ->
  exists (c : chart) (theory sim : dataset),
    chartInstance pg' = Some c /\ datasets c = [theory; sim] /\
    label theory = theory_label /\
    Forall (fun v => isZero v || isNaN v = true) (data theory).
Proof.
  intros HS H.
  destruct (simulateAndPlot_chart servers lambda mu pg pg' H)
    as (loads & sim & f & used & _ & _ & _ & ->).
  eexists _, _, _. split; [reflexivity|]. split; [reflexivity|].
  split; [reflexivity|]. cbn [data].
  apply Forall_forall. intros v Hv. apply in_map_iff in Hv.
  destruct Hv as (A & <- & _). apply erlangB_zero_or_NaN_from_171, HS.
Qed.

End PlotFacts.

(** * Concrete runs for the further properties *)

(** The run of [second_arrival_blocked_after_completion]: one server and
    two arrivals, the first admitted and the second blocked. *)
Lemma simulator_admits_first_servers_witness :
  let after := state_after log_table draws_late_second (of_Z 1) (of_Z 1) 1 in
  (2 <= 5)%nat /\
  loop_condition (of_Z 2) (after 2%nat) = false /\
  while_loop log_table draws_late_second (of_Z 1) (of_Z 1) 1 (of_Z 2) 5
    initial_state = Some (after 2%nat) /\
  0 < 1 /\ served (after 1%nat) = served (after 0%nat) + 1 /\
  1 <= 1 /\ blocked (after 2%nat) = blocked (after 1%nat) + 1 /\
  served (after 2%nat) = 1 /\ blocked (after 2%nat) = 1.
Proof.
  intros after.
  assert (H1 : (2 <= 5)%nat) by lia.
  assert (H2 : loop_condition (of_Z 2) (after 2%nat) = false) by reflexivity.
  assert (H3 : 0 < 1) by lia.
  assert (H4 : 1 <= 1) by lia.
  destruct (simulator_admits_first_servers log_table draws_late_second
              (of_Z 1) (of_Z 1) 1 (of_Z 2) 5 2 H1 H2)
    as (n & Hn & Hrun & Hc & Hall & Hpre & Hstep).
  destruct n as [|[|[|n]]]; [vm_compute in Hc; discriminate Hc
                            | vm_compute in Hc; discriminate Hc | | lia].
  destruct (Hstep 0%nat) as [Hadm _]; [lia|].
  destruct (Hstep 1%nat) as [_ Hrej]; [lia|].
  destruct (Hpre 2%nat) as (Hv & Hb & _); [lia|].
  destruct (Hadm H3) as [Hv1 _]. destruct (Hrej H4) as [_ Hb2].
  split; [exact H1|]. split; [exact H2|]. split; [exact Hrun|].
  split; [exact H3|]. split; [exact Hv1|]. split; [exact H4|]. split; [exact Hb2|].
  split; [exact Hv|]. unfold after. rewrite Hb, Hv. reflexivity.
Defined.

(** Three arrivals before the horizon 2 is passed: with one server the run
    returns 2/3, with none it returns 1, with five it returns 0. *)
Lemma simulator_result_extremes_witness :
  (of_Z 0 <? of_Z 2)%num = true /\ (3 <= 5)%nat /\ Z.of_nat 5 < 2 ^ 53 /\
  loop_condition (of_Z 2)
    (state_after log_table draws_half (of_Z 1) (of_Z 1) 1 3) = false /\
  simulateBlockingProbability log_table draws_half (of_Z 1) (of_Z 1) 1 (of_Z 2) 5
  = Some (of_Z 2 / of_Z 3)%num /\
  0 <= 0 /\
  simulateBlockingProbability log_table draws_half (of_Z 1) (of_Z 1) 0 (of_Z 2) 5
  = Some (of_Z 1) /\
  simulateBlockingProbability log_table draws_half (of_Z 1) (of_Z 1) 5 (of_Z 2) 5
  = Some pos_zero.
Proof.
  assert (H0 : (of_Z 0 <? of_Z 2)%num = true) by reflexivity.
  assert (H1 : (3 <= 5)%nat) by lia.
  assert (H3 : Z.of_nat 5 < 2 ^ 53) by reflexivity.
  assert (H4 : 0 <= 0) by lia.
  assert (C1 : loop_condition (of_Z 2)
                 (state_after log_table draws_half (of_Z 1) (of_Z 1) 1 3) = false)
    by reflexivity.
  assert (C0 : loop_condition (of_Z 2)
                 (state_after log_table draws_half (of_Z 1) (of_Z 1) 0 3) = false)
    by reflexivity.
  assert (C5 : loop_condition (of_Z 2)
                 (state_after log_table draws_half (of_Z 1) (of_Z 1) 5 3) = false)
    by reflexivity.
  destruct (simulator_result_extremes log_table draws_half
              (of_Z 1) (of_Z 1) 1 (of_Z 2) 5 3 H0 H1 C1 H3)
    as (n & Hn & _ & Hc & _ & _ & Hres & _).
  destruct (simulator_result_extremes log_table draws_half
              (of_Z 1) (of_Z 1) 0 (of_Z 2) 5 3 H0 H1 C0 H3)
    as (n0 & _ & _ & _ & _ & _ & _ & Hone & _).
  destruct (simulator_result_extremes log_table draws_half
              (of_Z 1) (of_Z 1) 5 (of_Z 2) 5 3 H0 H1 C5 H3)
    as (n5 & Hn5 & _ & _ & _ & _ & _ & _ & Hzero).
  split; [exact H0|]. split; [exact H1|]. split; [exact H3|]. split; [exact C1|].
  split.
  - destruct n as [|[|[|[|n]]]]; [lia | vm_compute in Hc; discriminate Hc
                                 | vm_compute in Hc; discriminate Hc | | lia].
    exact Hres.
  - split; [exact H4|]. split; [exact (Hone H4)|]. apply Hzero. lia.
Defined.

Lemma timers_release_every_server_witness :
  let st := state_after log_table draws_late_second (of_Z 1) (of_Z 1) 1 2 in
  while_loop log_table draws_late_second (of_Z 1) (of_Z 1) 1 (of_Z 2) 5
    initial_state = Some st /\
  serversInUse st = 1 /\ serversInUse (fire_timers st) = 0.
Proof.
  intros st.
  assert (H : while_loop log_table draws_late_second (of_Z 1) (of_Z 1) 1 (of_Z 2) 5
                initial_state = Some st) by (vm_compute; reflexivity).
  destruct (timers_release_every_server log_table draws_late_second
              (of_Z 1) (of_Z 1) 1 (of_Z 2) 5 st H) as (_ & _ & Hfire & _).
  split; [exact H|]. split; [reflexivity | exact Hfire].
Defined.

(** One click on each version of the page, with a random source that
    returns 0: every run counts a single arrival. *)
Lemma plot_series_aligned_witness :
  exists pg' : page,
    ScaledLoads.simulateAndPlot log_table zero_draws 5 1 (of_Z 1) (of_Z 1) initial_page
    = Some pg' /\
    exists c : chart, chartInstance pg' = Some c /\ length (labels c) = 20%nat.
Proof.
  destruct (ScaledLoads.simulateAndPlot log_table zero_draws 5 1 (of_Z 1) (of_Z 1)
              initial_page) as [pg'|] eqn:E.
  - exists pg'. split; [reflexivity|].
    destruct (plot_series_aligned log_table zero_draws 5 1 (of_Z 1) (of_Z 1)
                initial_page pg' (or_introl E)) as (c & Hc & Hl & _).
    exists c. split; [exact Hc | exact Hl].
  - vm_compute in E. discriminate E.
Defined.

Lemma plot_simulated_series_in_unit_interval_witness :
  Z.of_nat 5 < 2 ^ 53 /\
  exists pg' : page,
    FixedLoads.simulateAndPlot log_table zero_draws 5 1 (of_Z 1) (of_Z 1) initial_page
    = Some pg' /\
    exists (c : chart) (theory sim : dataset),
      chartInstance pg' = Some c /\ datasets c = [theory; sim] /\
      Forall (fun v => in_unit_interval v = true /\ isNaN v = false) (data sim).
Proof.
  assert (H : Z.of_nat 5 < 2 ^ 53) by reflexivity.
  split; [exact H|].
  destruct (FixedLoads.simulateAndPlot log_table zero_draws 5 1 (of_Z 1) (of_Z 1)
              initial_page) as [pg'|] eqn:E.
  - exists pg'. split; [reflexivity|].
    destruct (plot_simulated_series_in_unit_interval log_table zero_draws 5 1
                (of_Z 1) (of_Z 1) initial_page pg' H (or_intror E))
      as (c & theory & sim & Hc & Hd & _ & Hall).
    exists c, theory, sim. split; [exact Hc|]. split; [exact Hd | exact Hall].
  - vm_compute in E. discriminate E.
Defined.

Lemma plot_without_server_is_constant_one_witness :
  Z.of_nat 5 < 2 ^ 53 /\
  exists pg' : page,
    ScaledLoads.simulateAndPlot log_table zero_draws 5 0 (of_Z 3) (of_Z 2) initial_page
    = Some pg' /\
    exists c : chart,
      chartInstance pg' = Some c /\
      Forall (fun d => Forall (fun v => v = of_Z 1) (data d)) (datasets c).
Proof.
  assert (H : Z.of_nat 5 < 2 ^ 53) by reflexivity.
  split; [exact H|].
  destruct (ScaledLoads.simulateAndPlot log_table zero_draws 5 0 (of_Z 3) (of_Z 2)
              initial_page) as [pg'|] eqn:E.
  - exists pg'. split; [reflexivity|].
    apply (plot_without_server_is_constant_one log_table zero_draws 5
             (of_Z 3) (of_Z 2) initial_page pg' H (or_introl E)).
  - vm_compute in E. discriminate E.
Defined.

Lemma plot_theory_series_degenerate_from_171_witness :
  171 <= 200 /\
  exists pg' : page,
    FixedLoads.simulateAndPlot log_table zero_draws 5 200 (of_Z 1) (of_Z 1)
      initial_page = Some pg' /\
    exists (c : chart) (theory sim : dataset),
      chartInstance pg' = Some c /\ datasets c = [theory; sim] /\
      Forall (fun v => isZero v || isNaN v = true) (data theory).
Proof.
  assert (H : 171 <= 200) by lia.
  split; [exact H|].
  destruct (FixedLoads.simulateAndPlot log_table zero_draws 5 200 (of_Z 1) (of_Z 1)
              initial_page) as [pg'|] eqn:E.
  - exists pg'. split; [reflexivity|].
    destruct (plot_theory_series_degenerate_from_171 log_table zero_draws 5 200
                (of_Z 1) (of_Z 1) initial_page pg' H (or_intror E))
      as (c & theory & sim & Hc & Hd & _ & Hall).
    exists c, theory, sim. split; [exact Hc|]. split; [exact Hd | exact Hall].
  - unfold FixedLoads.simulateAndPlot in E.
    destruct (map_simulate _ _ _) as [[sim used]|] eqn:M; [discriminate E|].
    vm_compute in M. discriminate M.
Defined.

(** Two clicks, one on each version of the page. *)
Lemma one_chart_alive_witness :
  exists pg : page,
    clicks (ScaledLoads.simulateAndPlot log_table zero_draws 5)
      [(1, of_Z 1, of_Z 1); (2, of_Z 3, of_Z 1)] initial_page = Some pg /\
    live_charts pg = 1%nat.
Proof.
  destruct (clicks (ScaledLoads.simulateAndPlot log_table zero_draws 5)
              [(1, of_Z 1, of_Z 1); (2, of_Z 3, of_Z 1)] initial_page)
    as [pg|] eqn:E.
  - exists pg. split; [reflexivity|].
    destruct (one_chart_alive log_table zero_draws 5
                (ScaledLoads.simulateAndPlot log_table zero_draws 5)
                [(1, of_Z 1, of_Z 1); (2, of_Z 3, of_Z 1)] pg
                (or_introl eq_refl) E) as [Hl _].
    exact Hl.
  - vm_compute in E. discriminate E.
Defined.
